(** * Chess_Analyzer_GUI: the engine session of the chess analyzer

    A shallow embedding of the engine communication core of
    [Chess_Analyzer_GUI.py]: the worker coroutine [_async_engine_handler],
    the two queues it shares with the Tk callbacks, and the callbacks
    that submit requests or consume results ([_connect_to_stockfish],
    [_start_analysis], [_check_result_queue], [_update_gui_with_analysis],
    [_on_closing]); and of the board on screen: where squares, colours
    and labels are drawn, what a click does ([_on_square_click],
    [_flip_board], [_reset_board_from_fen], [_toggle_theme]), the font
    and the palettes.

    The libraries the program calls (python-chess, [queue], [os], [shutil],
    tkinter) are not part of the program.  Their values are modelled by
    small data types, and the calls whose outcome depends on the outside
    world (the child engine process, the file system) are operations of
    an interface that every theorem quantifies over.  An awaited engine
    call is taken to complete: it returns or it raises.  Of tkinter the
    model keeps what the program sets on its widgets, and that a root
    window can be destroyed once: [destroy] on a destroyed root raises. *)

From Stdlib Require Import ZArith QArith.
From stdpp Require Import base option list strings gmap.

Open Scope Z_scope.

(** ** python-chess values *)

Module chess.

(** [chess.Color] is [bool]: [chess.WHITE = True], [chess.BLACK = False]. *)
Definition Color := bool.
Definition WHITE : Color := true.
Definition BLACK : Color := false.

(** [chess.Move]; the program only ever calls [uci()] on a move. *)
Record Move := { uci : string }.

(** The state of a [chess.Board] object: what [fen()] prints apart from
    the side to move, the side to move, and the move stack. *)
Record Board := {
  placement : string;
  turn : Color;
  move_stack : list Move;
}.

(** [chess.engine.Score]: [Cp(n)], [Mate(n)] and the constant [MateGiven]. *)
Inductive Score :=
| Cp (cp : Z)
| Mate (moves : Z)
| MateGiven.

(** [Score.__neg__]. *)
Definition neg (sc : Score) : Score :=
  match sc with
  | Cp cp => Cp (- cp)
  | Mate moves => if decide (moves = 0) then MateGiven else Mate (- moves)
  | MateGiven => Mate 0
  end.

(** [Score.is_mate()]. *)
Definition is_mate (sc : Score) : bool :=
  match sc with
  | Cp _ => false
  | Mate _ => true
  | MateGiven => true
  end.

(** [Score.mate()]: [None] for a centipawn score. *)
Definition mate (sc : Score) : option Z :=
  match sc with
  | Cp _ => None
  | Mate moves => Some moves
  | MateGiven => Some 0
  end.

(** [Score.score(mate_score=...)] with a mate score given. *)
Definition score (mate_score : Z) (sc : Score) : option Z :=
  match sc with
  | Cp cp => Some cp
  | Mate moves =>
      if decide (0 < moves) then Some (mate_score - moves)
      else Some (- mate_score - moves)
  | MateGiven => Some mate_score
  end.

(** [chess.engine.PovScore]: a score and the side it is relative to. *)
Record PovScore := { relative : Score; pov_turn : Color }.

(** [PovScore.pov(color)]. *)
Definition pov (ps : PovScore) (color : Color) : Score :=
  if decide (pov_turn ps = color) then relative ps else neg (relative ps).

(** [chess.engine.InfoDict], the two keys the program reads; [None] is
    a key that is absent. *)
Record InfoDict := {
  info_pv : option (list Move);
  info_score : option PovScore;
}.

(** [chess.engine.Limit(time=...)], in seconds. *)
Record Limit := { time : Q }.

End chess.

(** ** Outcome of a call that may raise

    [Raises e] carries [str(e)] of an exception caught by
    [except Exception]. *)

Inductive outcome (A : Type) :=
| Returns (a : A)
| Raises (e : string).
Arguments Returns {A} a.
Arguments Raises {A} e.

(** ** The engine library

    An engine handle is the identity of the [UciProtocol] object that
    [popen_uci] returns.  The four awaited calls of the worker act on the
    outside world [W] and return or raise; [running] tells whether the
    child process behind a handle is still running. *)

Definition Handle := nat.

Class EngineLib (W : Type) := {
  popen_uci : string -> W -> outcome Handle * W;
  ping : Handle -> W -> outcome () * W;
  analyse : Handle -> chess.Board -> chess.Limit -> W -> outcome chess.InfoDict * W;
  quit : Handle -> W -> outcome () * W;
  running : W -> Handle -> bool;
}.

(** The calls the worker made, in order, each with its outcome. *)
Inductive Event :=
| EvPopen (sf_path : string) (r : outcome Handle)
| EvPing (h : Handle) (r : outcome ())
| EvAnalyse (h : Handle) (b : chess.Board) (limit : chess.Limit) (r : outcome chess.InfoDict)
| EvQuit (h : Handle) (r : outcome ()).

(** ** [queue.Queue]

    An unbounded FIFO queue, kept as the list of everything ever put and
    the number of items already taken: the items waiting are the rest. *)

Record Queue (A : Type) := { q_log : list A; q_taken : nat }.
Arguments q_log {A} q.
Arguments q_taken {A} q.

Definition q_empty {A} : Queue A := {| q_log := []; q_taken := 0 |}.

Definition q_put {A} (x : A) (q : Queue A) : Queue A :=
  {| q_log := q_log q ++ [x]; q_taken := q_taken q |}.

(** [get(timeout=...)] and [get_nowait()]: [None] stands for [queue.Empty]. *)
Definition q_get {A} (q : Queue A) : option (A * Queue A) :=
  match q_log q !! q_taken q with
  | Some x => Some (x, {| q_log := q_log q; q_taken := S (q_taken q) |})
  | None => None
  end.

Definition q_pending {A} (q : Queue A) : list A := drop (q_taken q) (q_log q).
Definition q_done {A} (q : Queue A) : list A := take (q_taken q) (q_log q).

(** ** Requests and results *)

(** A reference to a [chess.Board] object in the object store. *)
Definition loc := positive.

(** The tuples put on [request_queue]. *)
Inductive Request :=
| ReqConnect (sf_path : string)                        (* ("connect", resolved) *)
| ReqAnalyze (board_to_analyze : loc) (time_limit : Q) (* ("analyze", (board, t)) *)
| ReqQuit.                                             (* ("quit", None) *)

(** The dict built by the worker for ["analysis_result"]; a field is
    [None] when [dict.get] finds nothing (an absent key or a [None]
    value). *)
Record AnalysisResult := {
  ar_move : option string;
  ar_score : option chess.PovScore;
  ar_turn : option chess.Color;
}.

(** The tuples put on [result_queue]. *)
Inductive Result :=
| connect_success
| connect_fail (cause : string)
| analysis_result (r : AnalysisResult)
| error (msg : string).

(** ** The widgets the callbacks write to *)

(** Keys of the theme palette used as foreground colours. *)
Inductive Tone := tone_text | tone_muted | tone_accent | tone_success | tone_warning | tone_error.

(** Text of the evaluation label; the three f-strings keep their number. *)
Inductive EvalText :=
| Plain (s : string)
| MateIn (n : Z)         (* f"Mate in {mate_moves}" *)
| MatedIn (n : Z)        (* f"Mated in {-mate_moves}", [n] is [-mate_moves] *)
| Pawns (cp_score : Z).  (* f"{cp_score / 100:.2f}" *)

Record Gui := {
  status_label : string * Tone;
  sf_status_label : string * Tone;
  analyze_button : bool;                     (* tk.NORMAL is [true] *)
  best_move_label : string;
  evaluation_label : EvalText * Tone;
  dialogs : list (string * string);          (* messagebox.showerror(title, text) *)
  destroyed : bool;                          (* master.destroy() *)
}.

Definition _set_status (text : string) (kind : Tone) (g : Gui) : Gui :=
  {| status_label := (text, kind); sf_status_label := sf_status_label g;
     analyze_button := analyze_button g; best_move_label := best_move_label g;
     evaluation_label := evaluation_label g; dialogs := dialogs g;
     destroyed := destroyed g |}.

Definition config_sf_status_label (text : string) (fg : Tone) (g : Gui) : Gui :=
  {| status_label := status_label g; sf_status_label := (text, fg);
     analyze_button := analyze_button g; best_move_label := best_move_label g;
     evaluation_label := evaluation_label g; dialogs := dialogs g;
     destroyed := destroyed g |}.

Definition config_analyze_button (state : bool) (g : Gui) : Gui :=
  {| status_label := status_label g; sf_status_label := sf_status_label g;
     analyze_button := state; best_move_label := best_move_label g;
     evaluation_label := evaluation_label g; dialogs := dialogs g;
     destroyed := destroyed g |}.

Definition config_best_move_label (text : string) (g : Gui) : Gui :=
  {| status_label := status_label g; sf_status_label := sf_status_label g;
     analyze_button := analyze_button g; best_move_label := text;
     evaluation_label := evaluation_label g; dialogs := dialogs g;
     destroyed := destroyed g |}.

Definition config_evaluation_label (text : EvalText) (fg : Tone) (g : Gui) : Gui :=
  {| status_label := status_label g; sf_status_label := sf_status_label g;
     analyze_button := analyze_button g; best_move_label := best_move_label g;
     evaluation_label := (text, fg); dialogs := dialogs g;
     destroyed := destroyed g |}.

Definition showerror (title text : string) (g : Gui) : Gui :=
  {| status_label := status_label g; sf_status_label := sf_status_label g;
     analyze_button := analyze_button g; best_move_label := best_move_label g;
     evaluation_label := evaluation_label g; dialogs := dialogs g ++ [(title, text)];
     destroyed := destroyed g |}.

(** What [str(e)] is for the [TclError] of a command sent to an
    application that is no more:
    [can't invoke "destroy" command: application has been destroyed]. *)
Definition application_destroyed : string :=
  let dquote := String (Ascii.ascii_of_nat 34) EmptyString in
  "can't invoke " +:+ dquote +:+ "destroy" +:+ dquote +:+
  " command: application has been destroyed".

(** [master.destroy()], which is tkinter's [Tk.destroy]: it sends
    [destroy .] to the Tcl interpreter, whatever the state of the root.
    On a live root the window and its widgets go and the call returns.
    On a root already destroyed Tcl refuses the command and tkinter
    raises [TclError]. *)
Definition destroy (g : Gui) : outcome () * Gui :=
  if destroyed g then (Raises application_destroyed, g)
  else
    (Returns (),
     {| status_label := status_label g; sf_status_label := sf_status_label g;
        analyze_button := analyze_button g; best_move_label := best_move_label g;
        evaluation_label := evaluation_label g; dialogs := dialogs g;
        destroyed := true |}).

(** [_update_gui_with_analysis]; [live_turn] is [self.board.turn], the
    default of [result.get("turn", self.board.turn)]. *)
Definition _update_gui_with_analysis (result : AnalysisResult) (live_turn : chess.Color)
    (g : Gui) : Gui :=
  let best_move_uci := ar_move result in
  let score_obj := ar_score result in
  let analyzed_turn := default live_turn (ar_turn result) in
  let g := config_best_move_label
             (match best_move_uci with
              | Some m => if decide (m = "") then "N/A" else m
              | None => "N/A"
              end) g in
  match score_obj with
  | None => config_evaluation_label (Plain "(Not available)") tone_muted g
  | Some score_obj =>
      let pov_score := chess.pov score_obj analyzed_turn in
      if chess.is_mate pov_score then
        match chess.mate pov_score with
        | None => config_evaluation_label (Plain "Mate") tone_text g
        | Some mate_moves =>
            if decide (0 < mate_moves)
            then config_evaluation_label (MateIn mate_moves) tone_success g
            else config_evaluation_label (MatedIn (- mate_moves)) tone_error g
        end
      else
        match chess.score 10000 pov_score with
        | None => config_evaluation_label (Plain "0.00") tone_text g
        | Some cp_score =>
            if decide (50 < cp_score)
            then config_evaluation_label (Pawns cp_score) tone_success g
            else if decide (cp_score < -50)
            then config_evaluation_label (Pawns cp_score) tone_error g
            else config_evaluation_label (Pawns cp_score) tone_text g
        end
  end.

(** ** The application object *)

(** The worker thread: in its loop, returned after [break], or ended by
    an exception that no handler caught. *)
Inductive ThreadState :=
| Running
| Finished
| Crashed (e : string).

(** Library calls of the Tk callbacks whose result is not the program's
    to decide: the file system and [str.strip]. *)
Record Platform := {
  isfile : string -> bool;             (* os.path.isfile *)
  access_X_OK : string -> bool;        (* os.access(p, os.X_OK) *)
  abspath : string -> string;          (* os.path.abspath *)
  which : string -> option string;     (* shutil.which *)
  strip : string -> string;            (* str.strip *)
}.

Section Session.

Context {W : Type} `{EngineLib W}.

(** [self], the store of [chess.Board] objects it points into, and the
    outside world with the calls made on it so far. *)
Record App := {
  board : loc;                          (* self.board *)
  boards : gmap loc chess.Board;        (* the Board objects *)
  engine : option Handle;               (* self.engine *)
  engine_thread : ThreadState;          (* self.engine_thread *)
  request_queue : Queue Request;        (* self.request_queue *)
  result_queue : Queue Result;          (* self.result_queue *)
  gui : Gui;
  world : W;
  trace : list Event;
}.

Definition set_boards (x : gmap loc chess.Board) (s : App) : App :=
  {| board := board s; boards := x; engine := engine s;
     engine_thread := engine_thread s; request_queue := request_queue s;
     result_queue := result_queue s; gui := gui s; world := world s;
     trace := trace s |}.

Definition set_engine (x : option Handle) (s : App) : App :=
  {| board := board s; boards := boards s; engine := x;
     engine_thread := engine_thread s; request_queue := request_queue s;
     result_queue := result_queue s; gui := gui s; world := world s;
     trace := trace s |}.

Definition set_engine_thread (x : ThreadState) (s : App) : App :=
  {| board := board s; boards := boards s; engine := engine s;
     engine_thread := x; request_queue := request_queue s;
     result_queue := result_queue s; gui := gui s; world := world s;
     trace := trace s |}.

Definition set_request_queue (x : Queue Request) (s : App) : App :=
  {| board := board s; boards := boards s; engine := engine s;
     engine_thread := engine_thread s; request_queue := x;
     result_queue := result_queue s; gui := gui s; world := world s;
     trace := trace s |}.

Definition set_result_queue (x : Queue Result) (s : App) : App :=
  {| board := board s; boards := boards s; engine := engine s;
     engine_thread := engine_thread s; request_queue := request_queue s;
     result_queue := x; gui := gui s; world := world s;
     trace := trace s |}.

Definition set_gui (x : Gui) (s : App) : App :=
  {| board := board s; boards := boards s; engine := engine s;
     engine_thread := engine_thread s; request_queue := request_queue s;
     result_queue := result_queue s; gui := x; world := world s;
     trace := trace s |}.

(** An awaited engine call: the world moves on and the call is logged. *)
Definition called (w : W) (ev : Event) (s : App) : App :=
  {| board := board s; boards := boards s; engine := engine s;
     engine_thread := engine_thread s; request_queue := request_queue s;
     result_queue := result_queue s; gui := gui s; world := w;
     trace := trace s ++ [ev] |}.

(** *** The worker's computations: state, and exceptions that propagate *)

Definition M (A : Type) : Type := App -> outcome A * App.

Definition ret {A} (a : A) : M A := fun s => (Returns a, s).

Definition bind {A B} (m : M A) (k : A -> M B) : M B := fun s =>
  match m s with
  | (Returns a, s') => k a s'
  | (Raises e, s') => (Raises e, s')
  end.

(** [try: body except Exception as e: handler(e)]. *)
Definition try_except {A} (body : M A) (handler : string -> M A) : M A := fun s =>
  match body s with
  | (Returns a, s') => (Returns a, s')
  | (Raises e, s') => handler e s'
  end.

Definition modify (f : App -> App) : M () := fun s => (Returns (), f s).
Definition read {A} (f : App -> A) : M A := fun s => (Returns (f s), s).

Local Notation "x <- m ;; k" := (bind m (fun x => k))
  (at level 100, m at next level, right associativity).
Local Notation "m ;;; k" := (bind m (fun _ => k))
  (at level 100, right associativity).

(** The four awaited calls. *)
Definition await_popen_uci (sf_path : string) : M Handle := fun s =>
  let r := popen_uci sf_path (world s) in
  (r.1, called r.2 (EvPopen sf_path r.1) s).

Definition await_ping (h : Handle) : M () := fun s =>
  let r := ping h (world s) in
  (r.1, called r.2 (EvPing h r.1) s).

Definition await_analyse (h : Handle) (b : chess.Board) (limit : chess.Limit)
    : M chess.InfoDict := fun s =>
  let r := analyse h b limit (world s) in
  (r.1, called r.2 (EvAnalyse h b limit r.1) s).

Definition await_quit (h : Handle) : M () := fun s =>
  let r := quit h (world s) in
  (r.1, called r.2 (EvQuit h r.1) s).

(** Reading the object a board reference points to.  A reference the
    program holds always points to an object ([store_inv] below); the
    second case is there to make the function total. *)
Definition deref (l : loc) : M chess.Board := fun s =>
  match boards s !! l with
  | Some b => (Returns b, s)
  | None => (Raises "dangling board reference", s)
  end.

Definition put_result (r : Result) : M () :=
  modify (fun s => set_result_queue (q_put r (result_queue s)) s).

(** *** [_async_engine_handler] *)

(** The [command == "connect"] branch: first [if self.engine: ...],
    then the [try] that launches. *)
Definition quit_existing : M () :=
  e <- read engine ;;
  match e with
  | Some h =>
      try_except (await_quit h) (fun _ => ret ()) ;;;
      modify (set_engine None)
  | None => ret ()
  end.

Definition launch (sf_path : string) : M () :=
  try_except
    (h <- await_popen_uci sf_path ;;
     modify (set_engine (Some h)) ;;;
     await_ping h ;;;
     put_result connect_success)
    (fun e =>
     modify (set_engine None) ;;;
     put_result (connect_fail e)).

Definition on_connect (sf_path : string) : M () :=
  quit_existing ;;; launch sf_path.

(** The [command == "analyze"] branch. *)
Definition on_analyze (board_to_analyze : loc) (time_limit : Q) : M () :=
  e <- read engine ;;
  match e with
  | None => put_result (error "Engine is not connected.")
  | Some h =>
      try_except
        (b <- deref board_to_analyze ;;
         info <- await_analyse h b {| chess.time := time_limit |} ;;
         let pv := default [] (chess.info_pv info) in
         b <- deref board_to_analyze ;;
         let analysis := {|
           ar_move := Some (match pv with
                            | m :: _ => chess.uci m
                            | [] => "N/A"
                            end);
           ar_score := chess.info_score info;
           ar_turn := Some (chess.turn b);
         |} in
         put_result (analysis_result analysis))
        (fun e => put_result (error ("Analysis failed: " +:+ e)))
  end.

(** The [command == "quit"] branch, up to its [break]. *)
Definition on_quit : M () :=
  e <- read engine ;;
  match e with
  | Some h => try_except (await_quit h) (fun _ => ret ())
  | None => ret ()
  end.

(** After a branch that falls through to the next iteration, and
    after the branch that breaks: an exception that escaped the branch
    ends the thread. *)
Definition continue (r : outcome () * App) : App :=
  match r.1 with
  | Returns _ => r.2
  | Raises e => set_engine_thread (Crashed e) r.2
  end.

Definition break (r : outcome () * App) : App :=
  match r.1 with
  | Returns _ => set_engine_thread Finished r.2
  | Raises e => set_engine_thread (Crashed e) r.2
  end.

(** One pass of [while True]: nothing happens on [queue.Empty]. *)
Definition worker_iteration (s : App) : App :=
  match engine_thread s with
  | Running =>
      match q_get (request_queue s) with
      | None => s
      | Some (ReqConnect sf_path, q) =>
          continue (on_connect sf_path (set_request_queue q s))
      | Some (ReqAnalyze board_to_analyze time_limit, q) =>
          continue (on_analyze board_to_analyze time_limit (set_request_queue q s))
      | Some (ReqQuit, q) =>
          break (on_quit (set_request_queue q s))
      end
  | _ => s
  end.

(** [n] passes of the loop. *)
Definition _async_engine_handler (n : nat) (s : App) : App :=
  Nat.iter n worker_iteration s.


(** *** The Tk callbacks *)

Definition truthy (x : option string) : bool :=
  match x with
  | Some v => if decide (v = "") then false else true
  | None => false
  end.

Definition _resolve_engine_path (pf : Platform) (user_value : string) : option string :=
  if decide (user_value = "") then None
  else if isfile pf user_value then
    if access_X_OK pf user_value then Some (abspath pf user_value) else None
  else
    match which pf user_value with
    | Some resolved =>
        if truthy (Some resolved) && isfile pf resolved && access_X_OK pf resolved
        then Some resolved else None
    | None => None
    end.

Definition newline : string := String (Ascii.ascii_of_nat 10) EmptyString.

Definition invalid_executable_text : string :=
  "Invalid Stockfish executable." +:+ newline +:+ newline +:+
  "On Linux you can usually enter 'stockfish' (if installed) or browse to the binary."
  +:+ newline +:+
  "If you selected a file, ensure it is executable.".

(** [stockfish_path_var] is what the entry holds when the button is
    pressed. *)
Definition _connect_to_stockfish (pf : Platform) (stockfish_path_var : string)
    (s : App) : App :=
  let user_value := strip pf stockfish_path_var in
  let resolved := _resolve_engine_path pf user_value in
  if truthy resolved then
    match resolved with
    | Some resolved =>
        let s := set_request_queue (q_put (ReqConnect resolved) (request_queue s)) s in
        set_gui (_set_status "Attempting to connect to Stockfish..." tone_warning (gui s)) s
    | None => s
    end
  else set_gui (showerror "Error" invalid_executable_text (gui s)) s.

(** [self.board.copy()]: a new object with the state of the live one. *)
Definition board_copy (s : App) : option (loc * App) :=
  match boards s !! board s with
  | Some b =>
      let l := fresh (dom (boards s)) in
      Some (l, set_boards (<[l := b]> (boards s)) s)
  | None => None
  end.

Definition _start_analysis (s : App) : App :=
  let s := set_gui (_set_status "Analyzing position..." tone_warning (gui s)) s in
  let s := set_gui (config_analyze_button false (gui s)) s in
  let s := set_gui (config_best_move_label "..." (gui s)) s in
  let s := set_gui (config_evaluation_label (Plain "...") (evaluation_label (gui s)).2
                      (gui s)) s in
  match board_copy s with
  | Some (snapshot, s) =>
      set_request_queue (q_put (ReqAnalyze snapshot (2 # 1)) (request_queue s)) s
  | None => s
  end.

(** [self.board.turn]; the live board always exists, the default is
    never read. *)
Definition live_turn (s : App) : chess.Color :=
  match boards s !! board s with
  | Some b => chess.turn b
  | None => chess.WHITE
  end.

Definition _check_result_queue (s : App) : App :=
  match q_get (result_queue s) with
  | None => s
  | Some (msg, q) =>
      let s := set_result_queue q s in
      let g := gui s in
      match msg with
      | connect_success =>
          let g := config_sf_status_label "Status: Connected!" tone_success g in
          let g := config_analyze_button true g in
          set_gui (_set_status "Stockfish connected. Ready to analyze." tone_success g) s
      | connect_fail data =>
          let g := config_sf_status_label "Status: Connection failed" tone_error g in
          let g := config_analyze_button false g in
          let g := _set_status "Connection failed." tone_error g in
          set_gui (showerror "Connection Error"
                     ("Could not connect to Stockfish:" +:+ newline +:+ data) g) s
      | analysis_result data =>
          let g := _update_gui_with_analysis data (live_turn s) g in
          let g := _set_status "Analysis complete." tone_success g in
          set_gui (config_analyze_button true g) s
      | error data =>
          let g := showerror "Error" data g in
          let g := _set_status ("Error: " +:+ data) tone_error g in
          set_gui (config_analyze_button true g) s
      end
  end.

(** *** [_on_closing]

    The callback is written in the monad of the worker, since its last
    statement stands outside the [try] and what it raises reaches whoever
    called [_on_closing]. *)

(** [self.request_queue.put(("quit", None))]. *)
Definition put_quit : M () :=
  modify (fun s => set_request_queue (q_put ReqQuit (request_queue s)) s).

(** [self.engine_thread.join(timeout=2.0)] returns when the worker has
    ended or when the two seconds are over, whichever comes first, so it
    always returns.  The passes the worker makes meanwhile are passes of
    the interleaving; the join itself leaves no mark on the state. *)
Definition join (timeout : Q) : M () := ret ().

(** [self.master.destroy()]. *)
Definition master_destroy : M () := fun s =>
  let r := destroy (gui s) in (r.1, set_gui r.2 s).

Definition _on_closing : M () :=
  try_except put_quit (fun _ => ret ()) ;;;
  (th <- read engine_thread ;;
   match th with
   | Running => join (2 # 1)
   | _ => ret ()
   end) ;;;
  master_destroy.

(** Any in-place change of the live board: [self.board.push(move)] in
    [_on_square_click], [self.board.set_fen(fen)] in
    [_reset_board_from_fen]. *)
Definition mutate_board (f : chess.Board -> chess.Board) (s : App) : App :=
  set_boards (alter f (board s) (boards s)) s.

(** [__init__], once the worker thread is started.  [_create_widgets]
    sets the status text with the accent colour, and [_apply_theme],
    which runs next, gives every label the text colour and
    [sf_status_label] the error colour. *)
Definition starting_board : chess.Board :=
  {| chess.placement := "rnbqkbnr/pppppppp/8/8/8/8/PPPPPPPP/RNBQKBNR KQkq - 0 1";
     chess.turn := chess.WHITE;
     chess.move_stack := [] |}.

Definition __init__ (pf : Platform) (w : W) : App :=
  {| board := 1%positive;
     boards := {[ 1%positive := starting_board ]};
     engine := None;
     engine_thread := Running;
     request_queue := q_empty;
     result_queue := q_empty;
     gui := {| status_label :=
                 (if truthy (which pf "stockfish-ubuntu-x86-64-avx2")
                  then "Detected Stockfish in PATH. Click 'Connect to Stockfish'."
                  else "Ready. Provide Stockfish path (or 'stockfish').", tone_text);
               sf_status_label := ("Status: Not connected", tone_error);
               analyze_button := false;
               best_move_label := "";
               evaluation_label := (Plain "", tone_text);
               dialogs := [];
               destroyed := false |};
     world := w;
     trace := [] |}.

(** *** Interleavings

    The two threads meet only at the queues, so a run of the program is
    a sequence of callbacks of the Tk thread and passes of the worker
    loop.  A pass is one step: a callback that runs while the worker
    awaits the engine writes only the widgets, the live board and its
    own ends of the queues, none of which the branch under way reads. *)
Inductive Action :=
| Connect_pressed (stockfish_path_var : string)
| Analyze_pressed
| Board_changed (f : chess.Board -> chess.Board)
| Poll
| Window_closed
| Worker.

(** An exception that leaves a callback goes to whoever called it; the
    run goes on from the state the callback left. *)
Definition act (pf : Platform) (a : Action) (s : App) : App :=
  match a with
  | Connect_pressed v => _connect_to_stockfish pf v s
  | Analyze_pressed => _start_analysis s
  | Board_changed f => mutate_board f s
  | Poll => _check_result_queue s
  | Window_closed => (_on_closing s).2
  | Worker => worker_iteration s
  end.

Definition run (pf : Platform) (acts : list Action) (s : App) : App :=
  foldl (fun s a => act pf a s) s acts.

End Session.

Arguments App W : clear implicits.
Arguments M W A : clear implicits.
Arguments _on_closing : simpl never.

(** ** Reading a trace

    [replay cur tr] follows the calls of [tr] from a session that holds
    [cur]: a launch is accepted only while no handle is held, every other
    call only on the handle that is held.  It returns the handle held at
    the end, or [None] when some call breaks the discipline. *)

Definition holds (cur : option Handle) (h : Handle) : bool :=
  bool_decide (cur = Some h).

Fixpoint replay (cur : option Handle) (tr : list Event) : option (option Handle) :=
  match tr with
  | [] => Some cur
  | EvPopen _ r :: tr =>
      match cur with
      | Some _ => None
      | None => replay (match r with Returns h => Some h | Raises _ => None end) tr
      end
  | EvPing h r :: tr =>
      if holds cur h
      then replay (match r with Returns _ => cur | Raises _ => None end) tr
      else None
  | EvAnalyse h _ _ _ :: tr =>
      if holds cur h then replay cur tr else None
  | EvQuit h _ :: tr =>
      if holds cur h then replay None tr else None
  end.

(** Which results answer which request. *)
Definition wants_result (req : Request) : bool :=
  match req with
  | ReqQuit => false
  | _ => true
  end.

Definition answers (req : Request) (res : Result) : bool :=
  match req, res with
  | ReqConnect _, connect_success => true
  | ReqConnect _, connect_fail _ => true
  | ReqAnalyze _ _, analysis_result _ => true
  | ReqAnalyze _ _, error _ => true
  | _, _ => false
  end.

(** ** What every reachable state satisfies

    The requests taken so far are a prefix of those put; the results put
    so far answer, one each and in order, the requests taken that want a
    result; while the worker is in its loop the calls it made replay to
    the handle [self.engine] holds and it has taken no [ReqQuit]; and the
    worker was never ended by an exception. *)

Definition session_inv {W} (s : App W) : Prop :=
  (q_taken (request_queue s) <= length (q_log (request_queue s)))%nat /\
  Forall2 (fun req res => answers req res = true)
    (filter (fun req => wants_result req = true) (q_done (request_queue s)))
    (q_log (result_queue s)) /\
  match engine_thread s with
  | Running =>
      replay None (trace s) = Some (engine s) /\
      Forall (fun req => wants_result req = true) (q_done (request_queue s))
  | Finished => is_Some (replay None (trace s))
  | Crashed _ => False
  end.

(** What a branch of the worker changes: it appends [evs] to the trace
    and [results] to the result queue; the handle and the world move. *)
Definition handled {W} (s s' : App W) (evs : list Event) (results : list Result) : Prop :=
  board s' = board s /\ boards s' = boards s /\ gui s' = gui s /\
  engine_thread s' = engine_thread s /\ request_queue s' = request_queue s /\
  q_taken (result_queue s') = q_taken (result_queue s) /\
  q_log (result_queue s') = q_log (result_queue s) ++ results /\
  trace s' = trace s ++ evs.

(** What a Tk callback can change: the boards, the widgets, and the
    queues at its own end (requests put, results taken). *)
Definition tk_frame {W} (s s' : App W) : Prop :=
  board s' = board s /\ engine s' = engine s /\
  engine_thread s' = engine_thread s /\ world s' = world s /\
  trace s' = trace s /\ q_log (result_queue s') = q_log (result_queue s) /\
  q_taken (request_queue s') = q_taken (request_queue s) /\
  exists new, q_log (request_queue s') = q_log (request_queue s) ++ new.

(** The live board exists, and every analysis ever requested has the
    budget of two seconds and a board object of its own. *)
Definition store_inv {W} (s : App W) : Prop :=
  is_Some (boards s !! board s) /\
  Forall (fun req =>
            match req with
            | ReqAnalyze l t => t = (2 # 1)%Q /\ l <> board s /\ is_Some (boards s !! l)
            | _ => True
            end) (q_log (request_queue s)).

(** Two states the worker cannot tell apart until it has taken every
    request of the first: the second has [extra] more requests waiting at
    the end of the queue, and any widgets. *)
Definition later_requests {W} (extra : list Request) (s1 s2 : App W) : Prop :=
  board s2 = board s1 /\ boards s2 = boards s1 /\ engine s2 = engine s1 /\
  engine_thread s2 = engine_thread s1 /\ result_queue s2 = result_queue s1 /\
  world s2 = world s1 /\ trace s2 = trace s1 /\
  q_taken (request_queue s2) = q_taken (request_queue s1) /\
  q_log (request_queue s2) = q_log (request_queue s1) ++ extra.

(** Whether a run closes the window. *)
Definition closes (acts : list Action) : bool :=
  existsb (fun a => match a with Window_closed => true | _ => false end) acts.

(** ** A scripted engine and platform, for concrete runs *)

Record Sim := {
  sim_next : Handle;                         (* the next handle to hand out *)
  sim_alive : list Handle;                   (* processes still running *)
  sim_launches : bool;                       (* does popen_uci succeed *)
  sim_ready : bool;                          (* does ping succeed *)
  sim_reply : option chess.InfoDict;         (* None: the engine dies in analyse *)
  sim_quits : bool;                          (* does quit succeed *)
}.

Definition sim_kill (h : Handle) (w : Sim) : Sim :=
  {| sim_next := sim_next w; sim_alive := filter (fun x => x <> h) (sim_alive w);
     sim_launches := sim_launches w; sim_ready := sim_ready w;
     sim_reply := sim_reply w; sim_quits := sim_quits w |}.

Definition sim_spawn (w : Sim) : Sim :=
  {| sim_next := S (sim_next w); sim_alive := sim_next w :: sim_alive w;
     sim_launches := sim_launches w; sim_ready := sim_ready w;
     sim_reply := sim_reply w; sim_quits := sim_quits w |}.

Definition died : string := "engine process died unexpectedly (exit code: 1)".

#[export] Instance sim_engine : EngineLib Sim := {|
  popen_uci _ w :=
    if sim_launches w then (Returns (sim_next w), sim_spawn w)
    else (Raises "[Errno 2] No such file or directory", w);
  ping h w :=
    if sim_ready w then (Returns (), w) else (Raises died, sim_kill h w);
  analyse h _ _ w :=
    match sim_reply w with
    | Some info => (Returns info, w)
    | None => (Raises died, sim_kill h w)
    end;
  quit h w :=
    if sim_quits w then (Returns (), sim_kill h w) else (Raises died, sim_kill h w);
  running w h := bool_decide (h ∈ sim_alive w);
|}.

Definition e2e4 : chess.Move := {| chess.uci := "e2e4" |}.

Definition sim_world (reply : option chess.InfoDict) : Sim :=
  {| sim_next := 1%nat; sim_alive := []; sim_launches := true; sim_ready := true;
     sim_reply := reply; sim_quits := true |}.

Definition sim_info : chess.InfoDict :=
  {| chess.info_pv := Some [e2e4];
     chess.info_score := Some {| chess.relative := chess.Cp 35; chess.pov_turn := chess.WHITE |} |}.

Fixpoint lstrip (v : string) : string :=
  match v with
  | String c v' => if Ascii.is_space c then lstrip v' else v
  | EmptyString => EmptyString
  end.

(** One engine installed as [/usr/games/stockfish], found on the search
    path as [stockfish]. *)
Definition sim_platform : Platform :=
  {| isfile p := bool_decide (p = "/usr/games/stockfish");
     access_X_OK p := bool_decide (p = "/usr/games/stockfish");
     abspath p := p;
     which p := if decide (p = "stockfish") then Some "/usr/games/stockfish" else None;
     strip v := String.rev (lstrip (String.rev (lstrip v))) |}.

(** Replies of the scripted engine: a mate in three for White, and the
    reply in a position where White is checkmated (no line, mate in 0). *)
Definition sim_mate_info : chess.InfoDict :=
  {| chess.info_pv := Some [e2e4];
     chess.info_score := Some {| chess.relative := chess.Mate 3; chess.pov_turn := chess.WHITE |} |}.

Definition sim_mated_info : chess.InfoDict :=
  {| chess.info_pv := Some [];
     chess.info_score := Some {| chess.relative := chess.Mate 0; chess.pov_turn := chess.WHITE |} |}.

(** The application just started, connected to the scripted engine, and
    with one analysis submitted and not yet taken by the worker. *)
Definition sim_start (reply : option chess.InfoDict) : App Sim :=
  __init__ sim_platform (sim_world reply).

Definition sim_connected (reply : option chess.InfoDict) : App Sim :=
  run sim_platform [Connect_pressed " stockfish "; Worker] (sim_start reply).

Definition sim_analysis_pending (reply : option chess.InfoDict) : App Sim :=
  run sim_platform [Analyze_pressed] (sim_connected reply).

(** ** Vocabulary of the further properties *)

(** Both queues are drained and the worker is in its loop. *)
Definition idle {W} (s : App W) : Prop :=
  engine_thread s = Running /\
  q_taken (request_queue s) = length (q_log (request_queue s)) /\
  q_taken (result_queue s) = length (q_log (result_queue s)).

(** The paths of the launches in a trace. *)
Definition launched (tr : list Event) : list string :=
  omap (fun ev => match ev with EvPopen p _ => Some p | _ => None end) tr.

(** The paths of the connect requests in a queue log. *)
Definition connect_paths (reqs : list Request) : list string :=
  omap (fun req => match req with ReqConnect p => Some p | _ => None end) reqs.

(** A path [_resolve_engine_path] returns for some text of the entry. *)
Definition vetted (pf : Platform) (p : string) : Prop :=
  p <> "" /\ exists v, _resolve_engine_path pf (strip pf v) = Some p.

Definition is_callback (a : Action) : bool :=
  match a with
  | Worker => false
  | _ => true
  end.

(** The launches made are the connect requests taken, in order. *)
Definition launches_inv {W} (s : App W) : Prop :=
  (q_taken (request_queue s) <= length (q_log (request_queue s)))%nat /\
  launched (trace s) = connect_paths (q_done (request_queue s)) /\
  forall e, engine_thread s <> Crashed e.

(** The world after the connect branch has quit the engine it held. *)
Definition world_after_quit {W} `{EngineLib W} (s : App W) : W :=
  match engine s with
  | Some h => (quit h (world s)).2
  | None => world s
  end.

(** The scripted session connected and polled: both queues drained. *)
Definition sim_polled (reply : option chess.InfoDict) : App Sim :=
  run sim_platform [Poll] (sim_connected reply).

(** A session holding handle 1 whose engine binary has since vanished,
    with a reconnect and an analysis waiting. *)
Definition sim_reconnect : App Sim :=
  {| board := 1%positive;
     boards := {[ 1%positive := starting_board; 2%positive := starting_board ]};
     engine := Some 1%nat;
     engine_thread := Running;
     request_queue := {| q_log := [ReqConnect "/usr/games/stockfish";
                                   ReqAnalyze 2%positive (2 # 1)];
                         q_taken := 0 |};
     result_queue := q_empty;
     gui := gui (sim_polled None);
     world := {| sim_next := 2%nat; sim_alive := [1%nat]; sim_launches := false;
                 sim_ready := true; sim_reply := None; sim_quits := true |};
     trace := [] |}.

From stdpp Require Import pretty.

Open Scope Z_scope.

(** ** Squares, pixels and what is drawn *)

Module squares.

(** [chess.square], [chess.square_file], [chess.square_rank]. *)
Definition square (file_index rank_index : Z) : Z := rank_index * 8 + file_index.
Definition square_file (sq : Z) : Z := Z.land sq 7.
Definition square_rank (sq : Z) : Z := Z.shiftr sq 3.

(** [chess.FILE_NAMES] and [chess.RANK_NAMES] at an index in [0, 8). *)
Definition file_name (file_index : Z) : string :=
  String (Ascii.ascii_of_N (Z.to_N (97 + file_index))) EmptyString.
Definition rank_name (rank_index : Z) : string := pretty (rank_index + 1).

End squares.

Definition square_size : Z := 60.     (* self.square_size *)
Definition coord_offset : Z := 30.    (* coord_offset in the callbacks *)

Definition _square_to_pixel_coords (board_flipped : bool) (sq offset : Z) : Z * Z :=
  let file := squares.square_file sq in
  let rank := squares.square_rank sq in
  let x := file * square_size + offset in
  let y := if board_flipped then rank * square_size + offset
           else (7 - rank) * square_size + offset in
  (x, y).

(** The head of [_on_square_click]: the square under the pointer, [None]
    when the function returns at the bounds check.  [//] is [Z.div]:
    both round down. *)
Definition clicked_square (board_flipped : bool) (event_x event_y : Z) : option Z :=
  let click_x := event_x - coord_offset in
  let click_y := event_y - coord_offset in
  let file := click_x / square_size in
  let rank := if board_flipped then click_y / square_size
              else 7 - click_y / square_size in
  if bool_decide (0 <= file < 8 /\ 0 <= rank < 8)
  then Some (squares.square file rank) else None.

(** The two board colours of the palette. *)
Inductive SquareFill := board_light | board_dark.

#[export] Instance SquareFill_eq_dec : EqDecision SquareFill.
Proof. solve_decision. Defined.

#[export] Instance Q_eq_dec : EqDecision Q.
Proof. solve_decision. Defined.

(** The rectangles of [_draw_board], in the order drawn: corners and
    fill. *)
Definition _draw_board_squares : list (Z * Z * Z * Z * SquareFill) :=
  i ← seqZ 0 8;
  j ← seqZ 0 8;
  let x1 := j * square_size + coord_offset in
  let y1 := i * square_size + coord_offset in
  let x2 := x1 + square_size in
  let y2 := y1 + square_size in
  let color := if decide ((i + j) `mod` 2 = 0) then board_light else board_dark in
  [(x1, y1, x2, y2, color)].

(** The labels of [_draw_coordinates] for index [i] of its loop. *)
Definition rank_label (board_flipped : bool) (i : Z) : string :=
  if negb board_flipped then pretty (8 - i) else pretty (i + 1).

Definition file_label (board_flipped : bool) (i : Z) : string :=
  if negb board_flipped
  then String (Ascii.ascii_of_N (Z.to_N (97 + i))) EmptyString
  else String (Ascii.ascii_of_N (Z.to_N (104 - i))) EmptyString.

(** The texts of [_draw_coordinates], in the order drawn: position and
    text.  The halves are exact ([offset / 2] is 15, [square_size / 2]
    is 30). *)
Definition _draw_coordinates (board_flipped : bool) (offset : Z) : list (Q * Q * string) :=
  i ← seqZ 0 8;
  let rank_label := rank_label board_flipped i in
  let file_label := file_label board_flipped i in
  [ (inject_Z offset / 2,
     inject_Z (i * square_size + offset) + inject_Z square_size / 2, rank_label);
    (inject_Z (8 * square_size + offset) + inject_Z offset / 2,
     inject_Z (i * square_size + offset) + inject_Z square_size / 2, rank_label);
    (inject_Z (i * square_size + offset) + inject_Z square_size / 2,
     inject_Z offset / 2, file_label);
    (inject_Z (i * square_size + offset) + inject_Z square_size / 2,
     inject_Z (8 * square_size + offset) + inject_Z offset / 2, file_label) ]%Q.

(** ** Moving pieces with the mouse *)

Module moves.

(** [chess.Piece]: its type ([chess.PAWN] is 1, [chess.QUEEN] is 5) and
    its colour. *)
Record Piece := { piece_type : Z; color : chess.Color }.
Definition PAWN : Z := 1.
Definition QUEEN : Z := 5.

(** [chess.Move] as the click builds it: two squares and a promotion. *)
Record BoardMove := { from_square : Z; to_square : Z; promotion : option Z }.

#[global] Instance BoardMove_eq_dec : EqDecision BoardMove.
Proof. solve_decision. Defined.

(** What the callbacks ask of python-chess about a board.  [push] and
    [set_fen] change the board in place: they are given as the new state
    of the object, [set_fen] giving [None] when it raises [ValueError]
    and leaves the board as it was. *)
Record Rules := {
  piece_at : chess.Board -> Z -> option Piece;
  legal_moves : chess.Board -> list BoardMove;
  push : BoardMove -> chess.Board -> chess.Board;
  fen : chess.Board -> string;
  set_fen : string -> chess.Board -> option chess.Board;
}.

End moves.

(** Canvas items tagged ["highlight"]: the frame around the selected
    square and a dot in each square it can move to, each given by the
    corner of its square. *)
Inductive Highlight :=
| Frame (x y : Z)
| Dot (x y : Z).

(** The attributes of [self] that belong to the board on screen. *)
Record BoardView := {
  board_flipped : bool;               (* self.board_flipped *)
  selected_square : option Z;         (* self.selected_square *)
  fen_var : string;                   (* self.fen_var *)
  highlights : list Highlight;        (* canvas items tagged "highlight" *)
  theme : string;                     (* self.theme *)
}.

Definition select (sq : option Z) (hl : list Highlight) (v : BoardView) : BoardView :=
  {| board_flipped := board_flipped v; selected_square := sq; fen_var := fen_var v;
     highlights := hl; theme := theme v |}.

(** What [_highlight_legal_moves] leaves on the canvas. *)
Definition _highlight_legal_moves (rules : moves.Rules) (flipped : bool)
    (b : chess.Board) (sq : Z) : list Highlight :=
  let xy := _square_to_pixel_coords flipped sq coord_offset in
  Frame xy.1 xy.2 ::
  omap (fun move =>
          if decide (moves.from_square move = sq)
          then let xy := _square_to_pixel_coords flipped (moves.to_square move)
                           coord_offset in
               Some (Dot xy.1 xy.2)
          else None)
       (moves.legal_moves rules b).

(** The move [_on_square_click] tries: from the selected square to the
    clicked one, promoting to a queen when a pawn of the side to move
    would reach its last rank. *)
Definition tried_move (rules : moves.Rules) (b : chess.Board) (selected clicked : Z)
    : moves.BoardMove :=
  let piece := moves.piece_at rules b selected in
  {| moves.from_square := selected;
     moves.to_square := clicked;
     moves.promotion :=
       match piece with
       | Some p =>
           if decide (moves.piece_type p = moves.PAWN) then
             if bool_decide
                  ((chess.turn b = chess.WHITE /\ squares.square_rank clicked = 7) \/
                   (chess.turn b = chess.BLACK /\ squares.square_rank clicked = 0))
             then Some moves.QUEEN else None
           else None
       | None => None
       end |}.

(** Selecting the clicked square when it holds a piece of the side to
    move. *)
Definition select_own (rules : moves.Rules) (b : chess.Board) (clicked : Z)
    (v : BoardView) : BoardView :=
  match moves.piece_at rules b clicked with
  | Some piece =>
      if decide (moves.color piece = chess.turn b)
      then select (Some clicked)
             (_highlight_legal_moves rules (board_flipped v) b clicked) v
      else v
  | None => v
  end.

Section Board.

Context {W : Type} `{EngineLib W}.

Definition _on_square_click (rules : moves.Rules) (event_x event_y : Z)
    (u : BoardView * App W) : BoardView * App W :=
  let v := u.1 in
  let s := u.2 in
  match clicked_square (board_flipped v) event_x event_y, boards s !! board s with
  | Some clicked, Some b =>
      match selected_square v with
      | Some selected =>
          let move := tried_move rules b selected clicked in
          if bool_decide (move ∈ moves.legal_moves rules b) then
            ({| board_flipped := board_flipped v; selected_square := None;
                fen_var := moves.fen rules (moves.push rules move b);
                highlights := []; theme := theme v |},
             mutate_board (moves.push rules move) s)
          else (select_own rules b clicked (select None [] v), s)
      | None => (select_own rules b clicked v, s)
      end
  | _, _ => u
  end.

Definition _flip_board (u : BoardView * App W) : BoardView * App W :=
  ({| board_flipped := negb (board_flipped u.1); selected_square := None;
      fen_var := fen_var u.1; highlights := []; theme := theme u.1 |}, u.2).

Definition _reset_board_from_fen (rules : moves.Rules) (u : BoardView * App W)
    : BoardView * App W :=
  let v := u.1 in
  let s := u.2 in
  match boards s !! board s with
  | Some b =>
      match moves.set_fen rules (fen_var v) b with
      | Some b' =>
          (select (selected_square v) [] v,
           set_gui (_set_status "Board reset from FEN." tone_accent (gui s))
             (mutate_board (fun _ => b') s))
      | None =>
          (v, set_gui (showerror "Invalid FEN" "The FEN string is invalid." (gui s)) s)
      end
  | None => u
  end.

(** [_toggle_theme]: the other theme; [_apply_theme] recolours the
    labels and rewrites the connection label from [self.engine];
    [_draw_board] clears the canvas; the status keeps its text and is
    tinted as "info". *)
Definition _toggle_theme (u : BoardView * App W) : BoardView * App W :=
  let v := u.1 in
  let s := u.2 in
  let g := gui s in
  let g := config_evaluation_label (evaluation_label g).1 tone_text g in
  let g := match engine s with
           | None => config_sf_status_label "Status: Not connected" tone_error g
           | Some _ => config_sf_status_label "Status: Connected!" tone_success g
           end in
  let g := _set_status (status_label g).1 tone_accent g in
  ({| board_flipped := board_flipped v; selected_square := selected_square v;
      fen_var := fen_var v; highlights := [];
      theme := if decide (theme v = "dark") then "light" else "dark" |},
   set_gui g s).

(** Everything the user and the worker can do. *)
Inductive UiAction :=
| Click (event_x event_y : Z)
| Flip_pressed
| Fen_typed (text : string)
| Reset_pressed
| Theme_pressed
| Session (a : Action).

(** [Board_changed] stands for the moves and resets that [Click] and
    [Reset_pressed] make; in a run of [UiAction]s it does nothing. *)
Definition ui_act (pf : Platform) (rules : moves.Rules) (a : UiAction)
    (u : BoardView * App W) : BoardView * App W :=
  match a with
  | Click event_x event_y => _on_square_click rules event_x event_y u
  | Flip_pressed => _flip_board u
  | Fen_typed text =>
      ({| board_flipped := board_flipped u.1; selected_square := selected_square u.1;
          fen_var := text; highlights := highlights u.1; theme := theme u.1 |}, u.2)
  | Reset_pressed => _reset_board_from_fen rules u
  | Theme_pressed => _toggle_theme u
  | Session (Board_changed _) => u
  | Session a => (u.1, act pf a u.2)
  end.

Definition ui_run (pf : Platform) (rules : moves.Rules) (acts : list UiAction)
    (u : BoardView * App W) : BoardView * App W :=
  foldl (fun u a => ui_act pf rules a u) u acts.

(** The board on screen when the application starts. *)
Definition ui_init (pf : Platform) (rules : moves.Rules) (w : W) : BoardView * App W :=
  ({| board_flipped := false; selected_square := None;
      fen_var := moves.fen rules starting_board; highlights := []; theme := "dark" |},
   __init__ pf w).

End Board.

(** Highlights never go stale: either nothing is highlighted, or a
    square is selected, it holds a piece of the side to move on the live
    board, and the highlights are those of that square on that board in
    the orientation shown. *)
Definition highlights_current {W} (rules : moves.Rules) (u : BoardView * App W) : Prop :=
  highlights u.1 = [] \/
  exists sq b piece,
    selected_square u.1 = Some sq /\
    boards u.2 !! board u.2 = Some b /\
    moves.piece_at rules b sq = Some piece /\
    moves.color piece = chess.turn b /\
    highlights u.1 = _highlight_legal_moves rules (board_flipped u.1) b sq.

(** A toy position for concrete runs: White to move, a white pawn on e7
    (square 52) that may promote on e8 (square 60) to a queen or to a
    knight, and a white pawn on e2 (square 12) that may go to e4. *)
Definition sim_rules : moves.Rules :=
  {| moves.piece_at _ sq :=
       if bool_decide (sq = 52 \/ sq = 12)
       then Some {| moves.piece_type := moves.PAWN; moves.color := chess.WHITE |}
       else None;
     moves.legal_moves b :=
       if chess.turn b then
         [ {| moves.from_square := 52; moves.to_square := 60; moves.promotion := Some 2 |};
           {| moves.from_square := 52; moves.to_square := 60;
              moves.promotion := Some moves.QUEEN |};
           {| moves.from_square := 12; moves.to_square := 28; moves.promotion := None |} ]
       else [];
     moves.push move b :=
       {| chess.placement := "after " +:+ pretty (moves.from_square move) +:+ "-"
                             +:+ pretty (moves.to_square move);
          chess.turn := negb (chess.turn b);
          chess.move_stack := chess.move_stack b |};
     moves.fen b := chess.placement b;
     moves.set_fen text b :=
       if decide (text = "") then None
       else Some {| chess.placement := text; chess.turn := chess.WHITE;
                    chess.move_stack := [] |} |}.

(** The actions that are the board's own: clicks, flips, the FEN entry
    and the theme. *)
Definition is_board_action (a : UiAction) : bool :=
  match a with
  | Session _ => false
  | _ => true
  end.

(** ** Fonts and themes *)

Definition preferred : list string :=
  [ "DejaVu Sans"; "DejaVu Sans Mono"; "Noto Sans Symbols2"; "Noto Sans Symbols";
    "Symbola"; "Segoe UI Symbol"; "Apple Symbols"; "Arial Unicode MS"; "Arial" ].

(** [for f in candidates: if f in families: return f], with what follows
    the loop. *)
Fixpoint first_installed (families : gset string) (candidates : list string)
    (otherwise : string) : string :=
  match candidates with
  | [] => otherwise
  | f :: candidates =>
      if decide (f ∈ families) then f
      else first_installed families candidates otherwise
  end.

(** [tk_families] is the outcome of [tkfont.families()]. *)
Definition _detect_piece_font_family (tk_families : outcome (list string)) : string :=
  let families : gset string :=
    match tk_families with
    | Returns names => list_to_set names
    | Raises _ => ∅
    end in
  first_installed families preferred "TkDefaultFont".

(** [self.themes]. *)
Definition themes : gmap string (gmap string string) :=
  {[ "dark" :=
       list_to_map
         [ ("bg", "#1e1f22"); ("panel", "#2b2d31"); ("panel_alt", "#232428");
           ("text", "#e6e6e6"); ("muted", "#b5b5b5"); ("entry_bg", "#1b1c1f");
           ("button_bg", "#3a3d45"); ("button_active_bg", "#4a4e59");
           ("button_fg", "#ffffff"); ("accent", "#6ea8fe"); ("success", "#57d163");
           ("warning", "#fbbc04"); ("error", "#ff6b6b"); ("canvas_bg", "#1e1f22");
           ("board_light", "#DDB88C"); ("board_dark", "#A66D4F");
           ("coord_fg", "#e6e6e6") ];
     "light" :=
       list_to_map
         [ ("bg", "#f7f7f8"); ("panel", "#ffffff"); ("panel_alt", "#f2f3f5");
           ("text", "#111111"); ("muted", "#555555"); ("entry_bg", "#ffffff");
           ("button_bg", "#e6e6e8"); ("button_active_bg", "#d6d7da");
           ("button_fg", "#111111"); ("accent", "#1f6feb"); ("success", "#0a7a2f");
           ("warning", "#b25e00"); ("error", "#b00020"); ("canvas_bg", "#f7f7f8");
           ("board_light", "#DDB88C"); ("board_dark", "#A66D4F");
           ("coord_fg", "#111111") ] ]}.

(** [_palette]: [self.themes[self.theme]]; [None] is a [KeyError]. *)
Definition _palette (theme : string) : option (gmap string string) := themes !! theme.

(** The colour [_set_status] gives the status label: the dict literal is
    built from five subscripts of the palette, then looked up with the
    accent as default; [None] is a [KeyError]. *)
Definition _set_status_color (p : gmap string string) (kind : string) : option string :=
  info ← p !! "accent";
  success ← p !! "success";
  warning ← p !! "warning";
  error ← p !! "error";
  muted ← p !! "muted";
  otherwise ← p !! "accent";
  let by_kind : gmap string string :=
    {[ "info" := info; "success" := success; "warning" := warning;
       "error" := error; "muted" := muted ]} in
  Some (default otherwise (by_kind !! kind)).

(** The palette keys the program subscripts, in [_apply_theme],
    [_set_status], the drawing functions and [_highlight_legal_moves]. *)
Definition palette_keys : list string :=
  [ "bg"; "panel"; "text"; "entry_bg"; "panel_alt"; "accent"; "button_bg";
    "button_fg"; "button_active_bg"; "canvas_bg"; "error"; "success"; "warning";
    "muted"; "board_light"; "board_dark"; "coord_fg" ].



(** * Proofs *)

(** Unfolding a branch of the worker, and splitting on the outcome of
    the next engine call in the goal. *)
Ltac unfold_worker :=
  unfold on_connect, quit_existing, launch, on_analyze, on_quit, put_result,
    await_quit, await_popen_uci, await_ping, await_analyse, deref,
    try_except, bind, ret, modify, read, continue, break in *.

Ltac split_call :=
  match goal with
  | |- context [quit ?h ?w] => destruct (quit h w) as [[[]|?] ?]
  | |- context [popen_uci ?p ?w] => destruct (popen_uci p w) as [[?|?] ?]
  | |- context [ping ?h ?w] => destruct (ping h w) as [[[]|?] ?]
  | |- context [analyse ?h ?b ?l ?w] => destruct (analyse h b l w) as [[?|?] ?]
  end; cbn.

Ltac replay_done :=
  cbn; unfold holds; repeat (rewrite bool_decide_eq_true_2 by reflexivity; cbn);
  try reflexivity.

Ltac finish_handled :=
  eexists _, _; unfold handled; cbn; rewrite <- ?app_assoc; cbn;
  repeat split; try reflexivity; try (symmetry; apply app_nil_r); replay_done.

Section Proofs.

Context {W : Type} `{EngineLib W}.
Implicit Types (s : App W) (pf : Platform).

(** ** Runs, traces and queues *)

Lemma run_invariant pf (P : App W -> Prop) :
  (forall a s, P s -> P (act pf a s)) ->
  forall acts s, P s -> P (run pf acts s).
Proof.
  intros Hstep acts. induction acts as [|a acts IH]; intros s Hs; [exact Hs|].
  cbn. apply IH, Hstep, Hs.
Qed.

Lemma replay_app tr tr' cur :
  replay cur (tr ++ tr') =
  match replay cur tr with Some c => replay c tr' | None => None end.
Proof.
  revert cur. induction tr as [|ev tr IH]; intros cur; [done|].
  destruct ev as [p r|h r|h b l r|h r]; cbn.
  - destruct cur; [done|apply IH].
  - destruct (holds cur h); [apply IH|done].
  - destruct (holds cur h); [apply IH|done].
  - destruct (holds cur h); [apply IH|done].
Qed.

Lemma holds_same h : holds (Some h) h = true.
Proof. unfold holds. by rewrite bool_decide_eq_true_2. Qed.

Lemma q_get_Some {A} (q : Queue A) x q' :
  q_get q = Some (x, q') ->
  q_log q !! q_taken q = Some x /\ q_log q' = q_log q /\ q_taken q' = S (q_taken q).
Proof.
  unfold q_get. destruct (q_log q !! q_taken q) eqn:E; [|done].
  intros [= <- <-]. done.
Qed.

Lemma q_done_get {A} (q : Queue A) x q' :
  q_get q = Some (x, q') -> q_done q' = q_done q ++ [x].
Proof.
  intros (Hx & Hl & Ht)%q_get_Some. unfold q_done. rewrite Hl, Ht.
  by apply take_S_r.
Qed.

Lemma q_done_put {A} (q : Queue A) x :
  (q_taken q <= length (q_log q))%nat -> q_done (q_put x q) = q_done q.
Proof. intros Hle. unfold q_done, q_put. cbn. by rewrite take_app_le. Qed.


(** ** What each branch of the worker does to the state *)

Lemma on_connect_handled sf_path s :
  exists evs res,
    (on_connect sf_path s).1 = Returns () /\
    handled s (on_connect sf_path s).2 evs [res] /\
    answers (ReqConnect sf_path) res = true /\
    replay (engine s) evs = Some (engine (on_connect sf_path s).2).
Proof.
  unfold_worker. cbn. destruct (engine s) as [h|] eqn:Eeng; cbn.
  - split_call; repeat split_call; finish_handled.
  - repeat split_call; finish_handled.
Qed.

Lemma on_analyze_handled l t s :
  exists evs res,
    (on_analyze l t s).1 = Returns () /\
    handled s (on_analyze l t s).2 evs [res] /\
    answers (ReqAnalyze l t) res = true /\
    replay (engine s) evs = Some (engine s) /\
    engine (on_analyze l t s).2 = engine s.
Proof.
  unfold_worker. cbn. destruct (engine s) as [h|] eqn:Eeng; cbn.
  - destruct (boards s !! l) as [b|] eqn:Eb; cbn.
    + split_call; rewrite ?Eb; cbn; finish_handled; done.
    + finish_handled; done.
  - finish_handled; done.
Qed.

Lemma on_quit_handled s :
  exists evs,
    (on_quit s).1 = Returns () /\
    handled s (on_quit s).2 evs [] /\
    is_Some (replay (engine s) evs) /\
    engine (on_quit s).2 = engine s.
Proof.
  unfold_worker. cbn. destruct (engine s) as [h|] eqn:Eeng; cbn.
  - split_call; eexists; unfold handled; cbn;
      repeat split; try reflexivity; try (symmetry; apply app_nil_r);
      replay_done; eauto.
  - exists []. unfold handled; cbn; rewrite ?app_nil_r. repeat split; eauto.
Qed.

Lemma session_inv_worker s : session_inv s -> session_inv (worker_iteration s).
Proof.
  intros (Hle & Hres & Hthr). unfold worker_iteration.
  destruct (engine_thread s) eqn:Ethr; [|by repeat split; rewrite ?Ethr..].
  destruct Hthr as [Htr Hwork].
  destruct (q_get (request_queue s)) as [[req q]|] eqn:Eget;
    [|by repeat split; rewrite ?Ethr].
  pose proof (q_done_get _ _ _ Eget) as Hdone.
  apply q_get_Some in Eget as (Hx & Hl & Ht).
  assert (Hlt : (q_taken (request_queue s) < length (q_log (request_queue s)))%nat)
    by (by eapply lookup_lt_Some).
  assert (Hs1 : request_queue (set_request_queue q s) = q) by done.
  assert (Hr1 : result_queue (set_request_queue q s) = result_queue s) by done.
  assert (Ht1 : trace (set_request_queue q s) = trace s) by done.
  assert (Hth1 : engine_thread (set_request_queue q s) = engine_thread s) by done.
  assert (He1 : engine (set_request_queue q s) = engine s) by done.
  revert Hs1 Hr1 Ht1 Hth1 He1. generalize (set_request_queue q s) as s1.
  intros s1 Hs1 Hr1 Ht1 Hth1 He1.
  destruct req as [sf_path|l t|].
  - destruct (on_connect_handled sf_path s1)
      as (evs & res & Hret & (_ & _ & _ & Hth & Hq & _ & Hlog & Htrace) & Hans & Hrep).
    destruct (on_connect sf_path s1) as [r s2]. cbn in *. subst r.
    unfold continue, session_inv. cbn.
    rewrite Hq, Hlog, Hth, Htrace, replay_app, Hs1, Hr1, Ht1, Hth1, Ethr, Htr.
    rewrite <- He1, Hrep, Hl, Ht, Hdone.
    split; [lia|]. split; [|split; [done|]].
    + rewrite filter_app. apply Forall2_app; [done|].
      rewrite filter_cons_True by done. by constructor.
    + apply Forall_app; split; [done|]. by constructor.
  - destruct (on_analyze_handled l t s1)
      as (evs & res & Hret & (_ & _ & _ & Hth & Hq & _ & Hlog & Htrace) & Hans & Hrep & He).
    destruct (on_analyze l t s1) as [r s2]. cbn in *. subst r.
    unfold continue, session_inv. cbn.
    rewrite Hq, Hlog, Hth, Htrace, replay_app, Hs1, Hr1, Ht1, Hth1, Ethr, Htr.
    rewrite He, <- He1, Hrep, Hl, Ht, Hdone.
    split; [lia|]. split; [|split; [done|]].
    + rewrite filter_app. apply Forall2_app; [done|].
      rewrite filter_cons_True by done. by constructor.
    + apply Forall_app; split; [done|]. by constructor.
  - destruct (on_quit_handled s1)
      as (evs & Hret & (_ & _ & _ & Hth & Hq & _ & Hlog & Htrace) & Hrep & He).
    destruct (on_quit s1) as [r s2]. cbn in *. subst r.
    unfold break, session_inv. cbn.
    rewrite Hq, Hlog, Htrace, replay_app, Hs1, Hr1, Ht1, Htr.
    rewrite <- He1, Hl, Ht, Hdone.
    split; [lia|]. split; [|done].
    rewrite filter_app, filter_cons_False, filter_nil, !app_nil_r by done. done.
Qed.

(** ** The callbacks, and the invariant of reachable states *)

Lemma tk_frame_refl s : tk_frame s s.
Proof. repeat split. exists []. by rewrite app_nil_r. Qed.

Lemma _connect_to_stockfish_frame pf v s : tk_frame s (_connect_to_stockfish pf v s).
Proof.
  unfold _connect_to_stockfish.
  destruct (_resolve_engine_path pf (strip pf v)) as [r|]; cbn.
  - destruct (decide (r = "")); cbn; repeat split; cbn; eauto.
    exists []. by rewrite app_nil_r.
  - repeat split. exists []. by rewrite app_nil_r.
Qed.

Lemma _start_analysis_frame s : tk_frame s (_start_analysis s).
Proof.
  unfold _start_analysis, board_copy. cbn.
  destruct (boards s !! board s); cbn; repeat split; cbn; eauto.
  exists []. by rewrite app_nil_r.
Qed.

Lemma _check_result_queue_frame s : tk_frame s (_check_result_queue s).
Proof.
  unfold _check_result_queue.
  destruct (q_get (result_queue s)) as [[msg q]|] eqn:E; [|apply tk_frame_refl].
  apply q_get_Some in E as (_ & Hl & _).
  destruct msg; repeat split; cbn; try done; exists []; by rewrite app_nil_r.
Qed.

(** [_on_closing] in one piece: the [quit] is put in any case, and the
    window decides what the caller gets. *)
Lemma _on_closing_unfold s :
  _on_closing s =
    let s1 := set_request_queue (q_put ReqQuit (request_queue s)) s in
    if destroyed (gui s) then (Raises application_destroyed, s1)
    else (Returns (), set_gui (destroy (gui s)).2 s1).
Proof.
  unfold _on_closing, bind, try_except, put_quit, modify, read, join, ret,
    master_destroy, destroy.
  cbn. destruct (engine_thread s); cbn; destruct (destroyed (gui s)); reflexivity.
Qed.

Lemma _on_closing_frame s : tk_frame s (_on_closing s).2.
Proof.
  rewrite _on_closing_unfold. cbv zeta.
  destruct (destroyed (gui s)); repeat split; cbn; eauto.
Qed.

Lemma mutate_board_frame f s : tk_frame s (mutate_board f s).
Proof. repeat split. exists []. by rewrite app_nil_r. Qed.

Lemma tk_frame_act pf a s : a <> Worker -> tk_frame s (act pf a s).
Proof.
  destruct a; cbn; intros Ha; [| | | | |done].
  - apply _connect_to_stockfish_frame.
  - apply _start_analysis_frame.
  - apply mutate_board_frame.
  - apply _check_result_queue_frame.
  - apply _on_closing_frame.
Qed.

Lemma session_inv_tk s s' : tk_frame s s' -> session_inv s -> session_inv s'.
Proof.
  intros (_ & He & Hth & _ & Htr & Hres & Htk & new & Hlog) (Hle & Hans & Hrun).
  assert (Hdone : q_done (request_queue s') = q_done (request_queue s)).
  { unfold q_done. rewrite Htk, Hlog. by rewrite take_app_le. }
  unfold session_inv. rewrite Htk, Hlog, Hres, Hth, Htr, He, Hdone, length_app.
  split; [lia|done].
Qed.

Lemma session_inv_act pf a s : session_inv s -> session_inv (act pf a s).
Proof.
  intros Hs. destruct a; try (eapply session_inv_tk; [by apply tk_frame_act|done]).
  by apply session_inv_worker.
Qed.

Lemma session_inv_init pf (w : W) : session_inv (__init__ pf w).
Proof. repeat split; cbn; constructor. Qed.

Lemma session_inv_run pf (w : W) acts : session_inv (run pf acts (__init__ pf w)).
Proof. apply run_invariant; [apply session_inv_act|apply session_inv_init]. Qed.

(** What the worker leaves alone. *)
Lemma worker_iteration_frame s :
  board (worker_iteration s) = board s /\
  boards (worker_iteration s) = boards s /\
  gui (worker_iteration s) = gui s /\
  q_log (request_queue (worker_iteration s)) = q_log (request_queue s).
Proof.
  unfold worker_iteration.
  destruct (engine_thread s); [|done..].
  destruct (q_get (request_queue s)) as [[req q]|] eqn:Eget; [|done].
  apply q_get_Some in Eget as (_ & Hl & _).
  destruct req as [sf_path|l t|].
  - destruct (on_connect_handled sf_path (set_request_queue q s))
      as (evs & res & Hret & (Hb & Hbs & Hg & _ & Hq & _) & _).
    destruct (on_connect _ _) as [r s2]. cbn in *. subst r.
    unfold continue. cbn. by rewrite Hb, Hbs, Hg, Hq.
  - destruct (on_analyze_handled l t (set_request_queue q s))
      as (evs & res & Hret & (Hb & Hbs & Hg & _ & Hq & _) & _).
    destruct (on_analyze _ _ _) as [r s2]. cbn in *. subst r.
    unfold continue. cbn. by rewrite Hb, Hbs, Hg, Hq.
  - destruct (on_quit_handled (set_request_queue q s))
      as (evs & Hret & (Hb & Hbs & Hg & _ & Hq & _) & _).
    destruct (on_quit _) as [r s2]. cbn in *. subst r.
    unfold break. cbn. by rewrite Hb, Hbs, Hg, Hq.
Qed.

Lemma store_inv_act pf a s : store_inv s -> store_inv (act pf a s).
Proof.
  intros [Hlive Hreqs]. destruct a as [v| |f| | |]; cbn.
  - unfold _connect_to_stockfish.
    destruct (_resolve_engine_path pf (strip pf v)) as [r|]; cbn; [|done].
    destruct (decide (r = "")); cbn; [done|].
    split; [done|]. cbn. apply Forall_app; split; [done|]. by constructor.
  - unfold _start_analysis, board_copy. cbn.
    destruct Hlive as [b Hb]. rewrite Hb. cbn.
    pose proof (is_fresh (dom (boards s))) as Hfresh.
    set (l := fresh (dom (boards s))) in *.
    assert (Hne : l <> board s).
    { intros ->. apply Hfresh, elem_of_dom. eauto. }
    split; cbn.
    + rewrite lookup_insert_ne by done. eauto.
    + apply Forall_app; split.
      * eapply Forall_impl; [exact Hreqs|]. intros [?|l' t|]; [done| |done].
        intros (Ht & Hl' & [b' Hb']). repeat split; [done..|].
        destruct (decide (l = l')) as [<-|Hll].
        -- rewrite lookup_insert_eq. eauto.
        -- rewrite lookup_insert_ne by done. eauto.
      * constructor; [|done]. repeat split; [done|].
        rewrite lookup_insert_eq. eauto.
  - unfold mutate_board. split; cbn.
    + destruct Hlive as [b Hb]. rewrite lookup_alter_eq, Hb. cbn. eauto.
    + eapply Forall_impl; [exact Hreqs|]. intros [?|l' t|]; [done| |done].
      intros (Ht & Hl' & Hb'). repeat split; [done..|].
      by rewrite lookup_alter_ne.
  - unfold _check_result_queue.
    destruct (q_get (result_queue s)) as [[msg q]|]; [|done].
    destruct msg; done.
  - rewrite _on_closing_unfold. cbv zeta.
    destruct (destroyed (gui s));
      (split; [done|]; cbn; apply Forall_app; split; [done|]; by constructor).
  - destruct (worker_iteration_frame s) as (Hb & Hbs & _ & Hq).
    unfold store_inv. rewrite Hb, Hbs, Hq. done.
Qed.

Lemma store_inv_init pf (w : W) : store_inv (__init__ pf w).
Proof. split; cbn; [|constructor]. rewrite lookup_singleton_eq. eauto. Qed.

Lemma store_inv_run pf (w : W) acts : store_inv (run pf acts (__init__ pf w)).
Proof. apply run_invariant; [apply store_inv_act|apply store_inv_init]. Qed.

(** ** The connect branch *)

Lemma quit_existing_live s h :
  engine s = Some h ->
  quit_existing s =
    (Returns (),
     set_engine None (called (quit h (world s)).2 (EvQuit h (quit h (world s)).1) s)).
Proof.
  intros He. unfold_worker. cbn. rewrite He. cbn. by split_call.
Qed.



(** C2.  In every reachable state, the requests the worker has taken
    are the first ones put, in the order they were put, and the results
    put so far answer, one each and in the same order, the connect and
    analyze requests among them (success or failure of the same kind);
    the worker was never ended by an exception.  A pass of the running
    worker over a non-empty queue takes exactly the oldest waiting
    request and puts exactly one result for it (none for [ReqQuit]). *)
Theorem requests_answered_in_order pf (w : W) acts :
  let s := run pf acts (__init__ pf w) in
  let taken := q_done (request_queue s) in
  Forall2 (fun req res => answers req res = true)
    (filter (fun req => wants_result req = true) taken) (q_log (result_queue s)) /\
  (forall e, engine_thread s <> Crashed e) /\
  forall req rest,
    engine_thread s = Running ->
    q_pending (request_queue s) = req :: rest ->
    let s' := worker_iteration s in
    q_done (request_queue s') = taken ++ [req] /\
    q_pending (request_queue s') = rest /\
    (forall e, engine_thread s' <> Crashed e) /\
    exists new,
      q_log (result_queue s') = q_log (result_queue s) ++ new /\
      length new = (if wants_result req then 1 else 0)%nat.
Proof.
  intros s taken. pose proof (session_inv_run pf w acts) as Hinv. fold s in Hinv.
  split; [apply Hinv|]. split.
  { intros e He. destruct Hinv as (_ & _ & Hthr). by rewrite He in Hthr. }
  intros req rest Hrun Hpend s'.
  pose proof (session_inv_worker s Hinv) as (_ & _ & Hthr'). fold s' in Hthr'.
  assert (Hl : q_log (request_queue s) !! q_taken (request_queue s) = Some req).
  { unfold q_pending in Hpend.
    rewrite <- (Nat.add_0_r (q_taken _)), <- lookup_drop, Hpend. done. }
  assert (Hget : q_get (request_queue s) =
                 Some (req, {| q_log := q_log (request_queue s);
                               q_taken := S (q_taken (request_queue s)) |})).
  { unfold q_get. by rewrite Hl. }
  pose proof (q_done_get _ _ _ Hget) as Hdone.
  assert (Hrest : drop (S (q_taken (request_queue s))) (q_log (request_queue s)) = rest).
  { unfold q_pending in Hpend. rewrite (drop_S _ _ _ Hl) in Hpend. congruence. }
  subst s'. unfold worker_iteration in *. rewrite Hrun, Hget in *.
  set (q := {| q_log := _; q_taken := _ |}) in *.
  destruct req as [sf_path|l t|].
  - destruct (on_connect_handled sf_path (set_request_queue q s))
      as (evs & res & Hret & (_ & _ & _ & Hth & Hq & _ & Hlog & _) & _).
    destruct (on_connect _ _) as [r s2]. cbn in *. subst r.
    unfold continue in *. cbn in *. rewrite Hq.
    split; [done|]. split; [done|]. split.
    { intros e He. by rewrite He in Hthr'. }
    exists [res]. by rewrite Hlog.
  - destruct (on_analyze_handled l t (set_request_queue q s))
      as (evs & res & Hret & (_ & _ & _ & Hth & Hq & _ & Hlog & _) & _).
    destruct (on_analyze _ _ _) as [r s2]. cbn in *. subst r.
    unfold continue in *. cbn in *. rewrite Hq.
    split; [done|]. split; [done|]. split.
    { intros e He. by rewrite He in Hthr'. }
    exists [res]. by rewrite Hlog.
  - destruct (on_quit_handled (set_request_queue q s))
      as (evs & Hret & (_ & _ & _ & Hth & Hq & _ & Hlog & _) & _).
    destruct (on_quit _) as [r s2]. cbn in *. subst r.
    unfold break in *. cbn in *. rewrite Hq.
    split; [done|]. split; [done|]. split; [done|].
    exists []. by rewrite Hlog.
Qed.
Lemma quit_existing_returns s :
  (quit_existing s).1 = Returns () /\
  result_queue (quit_existing s).2 = result_queue s.
Proof.
  unfold_worker. cbn. destruct (engine s); cbn; [by split_call|done].
Qed.

Lemma on_connect_launch sf_path s :
  on_connect sf_path s = launch sf_path (quit_existing s).2.
Proof.
  unfold on_connect, bind. destruct (quit_existing_returns s) as [Hq _].
  destruct (quit_existing s) as [r s1]. cbn in *. by subst r.
Qed.

Lemma launch_popen_raises sf_path s e :
  (popen_uci sf_path (world s)).1 = Raises e ->
  launch sf_path s =
    (Returns (),
     set_result_queue (q_put (connect_fail e) (result_queue s))
       (set_engine None
          (called (popen_uci sf_path (world s)).2 (EvPopen sf_path (Raises e)) s))).
Proof.
  intros He. unfold_worker. cbn. destruct (popen_uci sf_path (world s)) as [r w1].
  cbn in *. by subst r.
Qed.

Lemma launch_ping_raises sf_path s h e :
  (popen_uci sf_path (world s)).1 = Returns h ->
  (ping h (popen_uci sf_path (world s)).2).1 = Raises e ->
  launch sf_path s =
    (Returns (),
     set_result_queue (q_put (connect_fail e) (result_queue s))
       (set_engine None
          (called (ping h (popen_uci sf_path (world s)).2).2 (EvPing h (Raises e))
             (set_engine (Some h)
                (called (popen_uci sf_path (world s)).2
                   (EvPopen sf_path (Returns h)) s))))).
Proof.
  intros Hp He. unfold_worker. cbn. destruct (popen_uci sf_path (world s)) as [r w1].
  cbn in *. subst r. cbn. destruct (ping h w1) as [r w2]. cbn in *. by subst r.
Qed.

(** C3, as amended.  When the entry names nothing executable (neither
    an executable file nor a command that [shutil.which] resolves to
    one), [_connect_to_stockfish] shows the error dialog and changes
    nothing else: no request is put, so no process is launched, no
    result is produced, and [self.engine] is left as it was.  In the
    worker, the connect branch never raises; a failed launch or a failed
    handshake puts [connect_fail] with the text of the exception and
    leaves [self.engine] empty. *)
Theorem invalid_executable_rejected_before_submission pf v sf_path s :
  (let user_value := strip pf v in
   (isfile pf user_value = false \/ access_X_OK pf user_value = false) ->
   (forall resolved, which pf user_value = Some resolved ->
      isfile pf resolved && access_X_OK pf resolved = false) ->
   _resolve_engine_path pf user_value = None /\
   _connect_to_stockfish pf v s =
     set_gui (showerror "Error" invalid_executable_text (gui s)) s) /\
  (on_connect sf_path s).1 = Returns () /\
  let s1 := (quit_existing s).2 in
  let s' := (on_connect sf_path s).2 in
  (forall e, (popen_uci sf_path (world s1)).1 = Raises e ->
     engine s' = None /\
     q_log (result_queue s') = q_log (result_queue s) ++ [connect_fail e] /\
     trace s' = trace s1 ++ [EvPopen sf_path (Raises e)]) /\
  (forall h e, (popen_uci sf_path (world s1)).1 = Returns h ->
     (ping h (popen_uci sf_path (world s1)).2).1 = Raises e ->
     engine s' = None /\
     q_log (result_queue s') = q_log (result_queue s) ++ [connect_fail e] /\
     trace s' = trace s1 ++ [EvPopen sf_path (Returns h); EvPing h (Raises e)]).
Proof.
  split; [|split].
  - intros user_value Hfile Hwhich.
    assert (Hnone : _resolve_engine_path pf user_value = None).
    { unfold _resolve_engine_path. destruct (decide (user_value = "")); [done|].
      destruct (isfile pf user_value) eqn:Ef.
      - destruct Hfile as [?|Hx]; [done|]. by rewrite Hx.
      - destruct (which pf user_value) as [r|] eqn:Ew; [|done].
        specialize (Hwhich r eq_refl).
        destruct (truthy (Some r)); cbn; [|done].
        by rewrite Hwhich. }
    split; [done|]. unfold _connect_to_stockfish. fold user_value. by rewrite Hnone.
  - destruct (on_connect_handled sf_path s) as (? & ? & Hret & _). done.
  - intros s1 s'. subst s1 s'. rewrite on_connect_launch.
    destruct (quit_existing_returns s) as [_ Hres]. rewrite <- Hres.
    generalize ((quit_existing s).2). clear Hres s. intros s. split.
    + intros e He. by rewrite (launch_popen_raises _ _ _ He).
    + intros h e Hp Hping. rewrite (launch_ping_raises _ _ _ _ Hp Hping). cbn.
      by rewrite <- app_assoc.
Qed.

(** C4.  An analyze request taken while [self.engine] is empty puts the
    result [("error", "Engine is not connected.")] and nothing else
    happens: no engine call is made, the world is untouched, and the
    worker stays in its loop. *)
Theorem analyze_without_engine s board_to_analyze time_limit q :
  engine_thread s = Running ->
  q_get (request_queue s) = Some (ReqAnalyze board_to_analyze time_limit, q) ->
  engine s = None ->
  let s' := worker_iteration s in
  s' = set_result_queue (q_put (error "Engine is not connected.") (result_queue s))
         (set_request_queue q s) /\
  q_log (result_queue s') = q_log (result_queue s) ++ [error "Engine is not connected."] /\
  trace s' = trace s /\ world s' = world s /\ engine s' = None /\
  engine_thread s' = Running.
Proof.
  intros Hrun Hget He s'. subst s'. unfold worker_iteration. rewrite Hrun, Hget.
  unfold_worker. cbn. rewrite He. cbn. done.
Qed.

(** ** The analyze branch *)

Lemma on_analyze_returns s h l t b info w' :
  engine s = Some h ->
  boards s !! l = Some b ->
  analyse h b {| chess.time := t |} (world s) = (Returns info, w') ->
  on_analyze l t s =
    (Returns (),
     set_result_queue
       (q_put (analysis_result
                 {| ar_move := Some (match default [] (chess.info_pv info) with
                                     | m :: _ => chess.uci m
                                     | [] => "N/A"
                                     end);
                    ar_score := chess.info_score info;
                    ar_turn := Some (chess.turn b) |}) (result_queue s))
       (called w' (EvAnalyse h b {| chess.time := t |} (Returns info)) s)).
Proof.
  intros He Hb Ha. unfold_worker. cbn. rewrite He. cbn. rewrite Hb, Ha. cbn.
  by rewrite Hb.
Qed.

Lemma on_analyze_raises s h l t b e w' :
  engine s = Some h ->
  boards s !! l = Some b ->
  analyse h b {| chess.time := t |} (world s) = (Raises e, w') ->
  on_analyze l t s =
    (Returns (),
     set_result_queue (q_put (error ("Analysis failed: " +:+ e)) (result_queue s))
       (called w' (EvAnalyse h b {| chess.time := t |} (Raises e)) s)).
Proof.
  intros He Hb Ha. unfold_worker. cbn. rewrite He. cbn. by rewrite Hb, Ha.
Qed.

(** C5.  The score shown for a completed analysis is the engine's score
    seen from the side to move of the analyzed board [b], whatever the
    turn [live] of the live board is when the result is displayed: the
    worker sends the turn of [b] with the score, and the display takes
    [pov] for that turn.  A mate score [n] of that view is shown as
    "Mate in n" when positive and "Mated in -n" when negative; a
    centipawn score is shown as that many centipawns. *)
Theorem score_is_from_the_analyzed_side s h l t b info w' ps live g :
  engine s = Some h ->
  boards s !! l = Some b ->
  analyse h b {| chess.time := t |} (world s) = (Returns info, w') ->
  chess.info_score info = Some ps ->
  exists r,
    q_log (result_queue (on_analyze l t s).2) =
      q_log (result_queue s) ++ [analysis_result r] /\
    ar_score r = Some ps /\
    ar_turn r = Some (chess.turn b) /\
    let view := chess.pov ps (chess.turn b) in
    let label := evaluation_label (_update_gui_with_analysis r live g) in
    (chess.pov_turn ps = chess.turn b -> view = chess.relative ps) /\
    (chess.pov_turn ps <> chess.turn b -> view = chess.neg (chess.relative ps)) /\
    (forall n, view = chess.Mate n -> 0 < n -> label = (MateIn n, tone_success)) /\
    (forall n, view = chess.Mate n -> n < 0 -> label = (MatedIn (- n), tone_error)) /\
    (forall cp, view = chess.Cp cp -> label.1 = Pawns cp).
Proof.
  intros He Hb Ha Hps. rewrite (on_analyze_returns _ _ _ _ _ _ _ He Hb Ha).
  eexists. split; [reflexivity|]. cbn. rewrite Hps.
  split; [done|]. split; [done|]. split; [|split; [|split; [|split]]].
  - intros Ht. unfold chess.pov. by rewrite decide_True.
  - intros Ht. unfold chess.pov. by rewrite decide_False.
  - intros n Hv Hn. unfold _update_gui_with_analysis. cbn. rewrite Hv. cbn.
    by rewrite decide_True.
  - intros n Hv Hn. unfold _update_gui_with_analysis. cbn. rewrite Hv. cbn.
    rewrite decide_False by lia. done.
  - intros cp Hv. unfold _update_gui_with_analysis. cbn. rewrite Hv. cbn.
    repeat case_decide; done.
Qed.

(** C6, as amended.  When the analysis call raises, the worker puts
    [("error", "Analysis failed: " + str(e))], stays in its loop, and
    keeps the handle it had: the failed call is the last call it makes
    for the request (no liveness check follows), so the session stays
    usable and connected to the same handle. *)
Theorem analysis_failure_is_reported s h l t b e w' q :
  engine_thread s = Running ->
  q_get (request_queue s) = Some (ReqAnalyze l t, q) ->
  engine s = Some h ->
  boards s !! l = Some b ->
  analyse h b {| chess.time := t |} (world s) = (Raises e, w') ->
  let s' := worker_iteration s in
  q_log (result_queue s') = q_log (result_queue s) ++ [error ("Analysis failed: " +:+ e)] /\
  engine_thread s' = Running /\
  engine s' = Some h /\
  trace s' = trace s ++ [EvAnalyse h b {| chess.time := t |} (Raises e)] /\
  world s' = w'.
Proof.
  intros Hrun Hget He Hb Ha s'. subst s'. unfold worker_iteration.
  rewrite Hrun, Hget.
  rewrite (on_analyze_raises (set_request_queue q s) h l t b e w' He Hb Ha).
  done.
Qed.

(** C9.  When the engine reports no line (the key [pv] absent, or an
    empty list), the analyze branch does not raise: it puts an analysis
    result whose move is the sentinel "N/A", and the best-move label
    shows "N/A". *)
Theorem empty_line_gives_sentinel s h l t b info w' live g :
  engine s = Some h ->
  boards s !! l = Some b ->
  analyse h b {| chess.time := t |} (world s) = (Returns info, w') ->
  default [] (chess.info_pv info) = [] ->
  (on_analyze l t s).1 = Returns () /\
  exists r,
    q_log (result_queue (on_analyze l t s).2) =
      q_log (result_queue s) ++ [analysis_result r] /\
    ar_move r = Some "N/A" /\
    best_move_label (_update_gui_with_analysis r live g) = "N/A".
Proof.
  intros He Hb Ha Hpv. rewrite (on_analyze_returns _ _ _ _ _ _ _ He Hb Ha), Hpv.
  split; [done|]. eexists. split; [reflexivity|]. split; [done|].
  unfold _update_gui_with_analysis. cbn.
  destruct (chess.info_score info) as [ps|]; [|done].
  repeat case_match; done.
Qed.

(** C10.  Every analyze request the program ever submits carries the
    budget of two seconds: [_start_analysis] takes no budget and always
    puts [2.0], although the worker passes whatever budget a request
    carries to the engine as the [Limit]. *)
Theorem analysis_budget_is_two_seconds pf (w : W) acts :
  let s := run pf acts (__init__ pf w) in
  Forall (fun req => forall l t, req = ReqAnalyze l t -> t = (2 # 1)%Q)
    (q_log (request_queue s)) /\
  (exists snapshot,
     q_log (request_queue (_start_analysis s)) =
       q_log (request_queue s) ++ [ReqAnalyze snapshot (2 # 1)]) /\
  forall h l t b,
    engine s = Some h ->
    boards s !! l = Some b ->
    trace (on_analyze l t s).2 =
      trace s ++ [EvAnalyse h b {| chess.time := t |}
                    (analyse h b {| chess.time := t |} (world s)).1].
Proof.
  intros s. pose proof (store_inv_run pf w acts) as [Hlive Hreqs]. fold s in Hlive, Hreqs.
  split; [|split].
  - eapply Forall_impl; [exact Hreqs|]. intros req Hreq l t ->. by destruct Hreq.
  - destruct Hlive as [b Hb]. unfold _start_analysis, board_copy. cbn. rewrite Hb.
    cbn. eauto.
  - intros h l t b He Hb.
    destruct (analyse h b {| chess.time := t |} (world s)) as [[info|e] w'] eqn:Ha.
    + by rewrite (on_analyze_returns _ _ _ _ _ _ _ He Hb Ha).
    + by rewrite (on_analyze_raises _ _ _ _ _ _ _ He Hb Ha).
Qed.
(** ** Board objects other than the live one *)

Lemma other_board_kept pf a s l b :
  l <> board s ->
  boards s !! l = Some b ->
  board (act pf a s) = board s /\ boards (act pf a s) !! l = Some b.
Proof.
  intros Hne Hb. destruct a as [v| |f| | |]; cbn.
  - unfold _connect_to_stockfish.
    destruct (_resolve_engine_path pf (strip pf v)) as [r|]; cbn; [|done].
    by destruct (decide (r = "")).
  - unfold _start_analysis, board_copy. cbn.
    destruct (boards s !! board s) as [b'|]; cbn; [|done].
    split; [done|]. rewrite lookup_insert_ne; [done|].
    intros Hl. apply (is_fresh (dom (boards s))). rewrite Hl.
    apply elem_of_dom. eauto.
  - unfold mutate_board. cbn. split; [done|]. by rewrite lookup_alter_ne.
  - unfold _check_result_queue.
    destruct (q_get (result_queue s)) as [[msg q]|]; [|done]. by destruct msg.
  - rewrite _on_closing_unfold. cbv zeta. by destruct (destroyed (gui s)).
  - destruct (worker_iteration_frame s) as (-> & -> & _). done.
Qed.

Lemma other_board_kept_run pf acts s l b :
  l <> board s ->
  boards s !! l = Some b ->
  board (run pf acts s) = board s /\ boards (run pf acts s) !! l = Some b.
Proof.
  revert s. induction acts as [|a acts IH]; intros s Hne Hb; [done|].
  change (run pf (a :: acts) s) with (run pf acts (act pf a s)).
  destruct (other_board_kept pf a s l b Hne Hb) as [Hboard Hkept].
  destruct (IH (act pf a s)) as [Hboard' Hkept']; [by rewrite Hboard|done|].
  by rewrite Hboard', Hboard.
Qed.

(** C7.  [_start_analysis] submits a board object of its own, distinct
    from the live board, holding the live board's state at that moment.
    Whatever the two threads do afterwards (moves and FEN resets on the
    live board included), that object keeps this state, and it is the
    state the worker hands to the engine when it analyzes the
    request. *)
Theorem snapshot_is_not_the_live_board pf (w : W) before after :
  let s := run pf before (__init__ pf w) in
  let s1 := _start_analysis s in
  exists snapshot b,
    boards s !! board s = Some b /\
    q_log (request_queue s1) =
      q_log (request_queue s) ++ [ReqAnalyze snapshot (2 # 1)] /\
    snapshot <> board s1 /\
    let s2 := run pf after s1 in
    board s2 = board s /\
    boards s2 !! snapshot = Some b /\
    forall h t,
      engine s2 = Some h ->
      trace (on_analyze snapshot t s2).2 =
        trace s2 ++ [EvAnalyse h b {| chess.time := t |}
                       (analyse h b {| chess.time := t |} (world s2)).1].
Proof.
  intros s s1. pose proof (store_inv_run pf w before) as [[b Hb] _]. fold s in Hb.
  pose proof (is_fresh (dom (boards s))) as Hfresh.
  set (l := fresh (dom (boards s))) in *.
  assert (Hne : l <> board s).
  { intros ->. apply Hfresh, elem_of_dom. eauto. }
  assert (Hs1 : s1 = set_request_queue
            (q_put (ReqAnalyze l (2 # 1)) (request_queue s))
            (set_boards (<[l := b]> (boards s))
               (set_gui (config_evaluation_label (Plain "...")
                           (evaluation_label (gui s)).2
                  (config_best_move_label "..."
                     (config_analyze_button false
                        (_set_status "Analyzing position..." tone_warning (gui s))))) s))).
  { subst s1. unfold _start_analysis, board_copy. cbn. by rewrite Hb. }
  exists l, b. split; [done|]. split; [by rewrite Hs1|]. split; [by rewrite Hs1|].
  intros s2.
  destruct (other_board_kept_run pf after s1 l b) as [Hboard Hkept].
  { by rewrite Hs1. }
  { rewrite Hs1. cbn. by rewrite lookup_insert_eq. }
  fold s2 in Hboard, Hkept. split; [by rewrite Hboard, Hs1|]. split; [done|].
  intros h t He.
  destruct (analyse h b {| chess.time := t |} (world s2)) as [[info|e] w'] eqn:Ha.
  - by rewrite (on_analyze_returns _ _ _ _ _ _ _ He Hkept Ha).
  - by rewrite (on_analyze_raises _ _ _ _ _ _ _ He Hkept Ha).
Qed.
(** ** Requests put behind a [quit] *)

Lemma on_connect_later extra sf_path s1 s2 :
  later_requests extra s1 s2 ->
  (on_connect sf_path s2).1 = (on_connect sf_path s1).1 /\
  later_requests extra (on_connect sf_path s1).2 (on_connect sf_path s2).2.
Proof.
  intros (Hb & Hbs & He & Hth & Hr & Hw & Htr & Ht & Hl).
  destruct s1 as [b1 bs1 e1 th1 rq1 rs1 g1 w1 tr1], s2 as [b2 bs2 e2 th2 rq2 rs2 g2 w2 tr2].
  cbn in *. subst. unfold_worker. cbn.
  destruct e1 as [h|]; cbn; repeat split_call; done.
Qed.

Lemma on_analyze_later extra l t s1 s2 :
  later_requests extra s1 s2 ->
  (on_analyze l t s2).1 = (on_analyze l t s1).1 /\
  later_requests extra (on_analyze l t s1).2 (on_analyze l t s2).2.
Proof.
  intros (Hb & Hbs & He & Hth & Hr & Hw & Htr & Ht & Hl).
  destruct s1 as [b1 bs1 e1 th1 rq1 rs1 g1 w1 tr1], s2 as [b2 bs2 e2 th2 rq2 rs2 g2 w2 tr2].
  cbn in *. subst. unfold_worker. cbn.
  destruct e1 as [h|]; cbn; [|done].
  destruct (_ !! l) eqn:Eb; cbn; [|done].
  split_call; rewrite ?Eb; done.
Qed.

Lemma on_quit_later extra s1 s2 :
  later_requests extra s1 s2 ->
  (on_quit s2).1 = (on_quit s1).1 /\
  later_requests extra (on_quit s1).2 (on_quit s2).2.
Proof.
  intros (Hb & Hbs & He & Hth & Hr & Hw & Htr & Ht & Hl).
  destruct s1 as [b1 bs1 e1 th1 rq1 rs1 g1 w1 tr1], s2 as [b2 bs2 e2 th2 rq2 rs2 g2 w2 tr2].
  cbn in *. subst. unfold_worker. cbn.
  destruct e1 as [h|]; cbn; repeat split_call; done.
Qed.

Lemma worker_iteration_later extra s1 s2 :
  later_requests extra s1 s2 ->
  (engine_thread s1 = Running -> q_pending (request_queue s1) <> []) ->
  later_requests extra (worker_iteration s1) (worker_iteration s2).
Proof.
  intros Hlater Hpend. pose proof Hlater as (Hb & Hbs & He & Hth & Hr & Hw & Htr & Ht & Hl).
  unfold worker_iteration. rewrite Hth.
  destruct (engine_thread s1) eqn:Ethr; [|done..].
  specialize (Hpend eq_refl).
  destruct (q_log (request_queue s1) !! q_taken (request_queue s1)) as [req|] eqn:Ereq.
  2:{ exfalso. apply Hpend. unfold q_pending. apply drop_ge.
      by apply lookup_ge_None. }
  unfold q_get. rewrite Hl, Ht, (lookup_app_l_Some _ _ _ _ Ereq), Ereq.
  set (q1 := {| q_log := q_log (request_queue s1); q_taken := _ |}).
  set (q2 := {| q_log := q_log (request_queue s1) ++ extra; q_taken := _ |}).
  assert (Hq : later_requests extra (set_request_queue q1 s1) (set_request_queue q2 s2)).
  { repeat split; cbn; try done. by rewrite Hth. }
  destruct req as [sf_path|l t|].
  - destruct (on_connect_later extra sf_path _ _ Hq) as [Hr' Hl'].
    unfold continue. rewrite Hr'.
    destruct (on_connect sf_path (set_request_queue q1 s1)) as [r1 s1'].
    destruct (on_connect sf_path (set_request_queue q2 s2)) as [r2 s2'].
    cbn in *. destruct r1; [done|]. 
    destruct Hl' as (? & ? & ? & ? & ? & ? & ? & ? & ?). repeat split; cbn; done.
  - destruct (on_analyze_later extra l t _ _ Hq) as [Hr' Hl'].
    unfold continue. rewrite Hr'.
    destruct (on_analyze l t (set_request_queue q1 s1)) as [r1 s1'].
    destruct (on_analyze l t (set_request_queue q2 s2)) as [r2 s2'].
    cbn in *. destruct r1; [done|]. 
    destruct Hl' as (? & ? & ? & ? & ? & ? & ? & ? & ?). repeat split; cbn; done.
  - destruct (on_quit_later extra _ _ Hq) as [Hr' Hl'].
    unfold break. rewrite Hr'.
    destruct (on_quit (set_request_queue q1 s1)) as [r1 s1'].
    destruct (on_quit (set_request_queue q2 s2)) as [r2 s2'].
    cbn in *. 
    destruct Hl' as (? & ? & ? & ? & ? & ? & ? & ? & ?).
    destruct r1; repeat split; cbn; done.
Qed.

Lemma run_app pf acts acts' s : run pf (acts ++ acts') s = run pf acts' (run pf acts s).
Proof. unfold run. by rewrite foldl_app. Qed.

Lemma request_log_grows pf acts s :
  exists new, q_log (request_queue (run pf acts s)) = q_log (request_queue s) ++ new.
Proof.
  revert s. induction acts as [|a acts IH]; intros s.
  { exists []. by rewrite app_nil_r. }
  change (run pf (a :: acts) s) with (run pf acts (act pf a s)).
  destruct (IH (act pf a s)) as [new Hnew]. rewrite Hnew.
  assert (Hstep : exists new', q_log (request_queue (act pf a s)) =
                               q_log (request_queue s) ++ new').
  { destruct a; try (by apply (tk_frame_act pf _ s)).
    cbn. destruct (worker_iteration_frame s) as (_ & _ & _ & ->).
    exists []. by rewrite app_nil_r. }
  destruct Hstep as [new' ->]. exists (new' ++ new). by rewrite app_assoc.
Qed.

Lemma quit_still_pending s :
  session_inv s ->
  ReqQuit ∈ q_log (request_queue s) ->
  engine_thread s = Running ->
  q_pending (request_queue s) <> [].
Proof.
  intros (_ & _ & Hthr) Hin Hrun Hnil. rewrite Hrun in Hthr. destruct Hthr as [_ Hwork].
  rewrite <- (take_drop (q_taken (request_queue s))) in Hin.
  unfold q_pending in Hnil. rewrite Hnil, app_nil_r in Hin.
  rewrite Forall_forall in Hwork. by specialize (Hwork _ Hin).
Qed.

Lemma _async_engine_handler_later extra n s1 s2 :
  later_requests extra s1 s2 ->
  session_inv s1 ->
  ReqQuit ∈ q_log (request_queue s1) ->
  later_requests extra (_async_engine_handler n s1) (_async_engine_handler n s2) /\
  session_inv (_async_engine_handler n s1) /\
  ReqQuit ∈ q_log (request_queue (_async_engine_handler n s1)).
Proof.
  intros Hlater Hinv Hin. induction n as [|n (IHl & IHi & IHq)]; [done|].
  change (_async_engine_handler (S n) s1)
    with (worker_iteration (_async_engine_handler n s1)).
  change (_async_engine_handler (S n) s2)
    with (worker_iteration (_async_engine_handler n s2)).
  split; [|split].
  - apply worker_iteration_later; [done|]. by apply quit_still_pending.
  - by apply session_inv_worker.
  - by destruct (worker_iteration_frame (_async_engine_handler n s1)) as (_ & _ & _ & ->).
Qed.

(** ** Closing the window *)

Lemma q_get_put_drained {A} (x : A) (q : Queue A) :
  q_taken q = length (q_log q) ->
  q_get (q_put x q) =
    Some (x, {| q_log := q_log q ++ [x]; q_taken := S (length (q_log q)) |}).
Proof.
  intros Hd. unfold q_get, q_put. cbn. rewrite Hd.
  rewrite lookup_app_r by done. by rewrite Nat.sub_diag.
Qed.

(** The widgets of a destroyed window stay destroyed, and only
    [_on_closing] destroys them. *)
Lemma _update_gui_with_analysis_destroyed result live g :
  destroyed (_update_gui_with_analysis result live g) = destroyed g.
Proof. unfold _update_gui_with_analysis. repeat case_match; reflexivity. Qed.

Lemma destroyed_act pf a s :
  destroyed (gui (act pf a s)) =
    destroyed (gui s) || match a with Window_closed => true | _ => false end.
Proof.
  destruct a as [v| |f| | |]; cbn.
  - rewrite orb_false_r. unfold _connect_to_stockfish.
    destruct (_resolve_engine_path pf (strip pf v)) as [r|]; [|done].
    unfold truthy. by destruct (decide (r = "")).
  - rewrite orb_false_r. unfold _start_analysis, board_copy. cbn.
    by destruct (boards s !! board s).
  - by rewrite orb_false_r.
  - rewrite orb_false_r. unfold _check_result_queue.
    destruct (q_get (result_queue s)) as [[msg q]|]; [|done].
    destruct msg; cbn; [done..| |done].
    apply _update_gui_with_analysis_destroyed.
  - rewrite _on_closing_unfold. cbv zeta. unfold destroy.
    by destruct (destroyed (gui s)) eqn:E.
  - rewrite orb_false_r. by destruct (worker_iteration_frame s) as (_ & _ & -> & _).
Qed.

Lemma destroyed_run pf acts s :
  destroyed (gui (run pf acts s)) = destroyed (gui s) || closes acts.
Proof.
  revert s. induction acts as [|a acts IH]; intros s; [by rewrite orb_false_r|].
  change (run pf (a :: acts) s) with (run pf acts (act pf a s)).
  rewrite IH, destroyed_act. cbn. by rewrite orb_assoc.
Qed.

Lemma on_quit_unfold s :
  on_quit s =
    (Returns (),
     match engine s with
     | Some h => called (quit h (world s)).2 (EvQuit h (quit h (world s)).1) s
     | None => s
     end).
Proof.
  unfold on_quit, bind, read, try_except, await_quit, ret. cbn.
  destruct (engine s) as [h|]; [|done]. cbn.
  by destruct (quit h (world s)) as [[[]|e] w'].
Qed.

(** C8.  [_on_closing] does not hang, and it returns exactly when the
    window has not been closed before, whether or not an engine was ever
    connected: closing again raises the [TclError] of [master.destroy()]
    to the caller.  In any state it puts one [quit], leaves the window
    destroyed and touches nothing of the worker.  The quit branch of the
    worker sends [quit] to the handle that is held, never raises, whether
    that call returns or raises, and makes no engine call when no engine
    is connected; taking [quit] ends the worker, and an ended worker takes
    no further request.  A worker with nothing waiting ends on its next
    pass after the window is closed.  Closing a second time changes
    nothing the worker does: after any number of worker passes the
    handle, the thread, the world, the calls made and the results are
    the same as after closing once, and the worker never ends by an
    exception. *)
Theorem shutdown_returns_once_and_ends_the_worker pf (w : W) before between n s :
  let s0 := run pf before (__init__ pf w) in
  let once := run pf between (_on_closing s0).2 in
  let twice := (_on_closing once).2 in
  (_on_closing s0).1 =
    (if closes before then Raises application_destroyed else Returns ()) /\
  (_on_closing once).1 = Raises application_destroyed /\
  (destroyed (gui (_on_closing s).2) = true /\
   q_log (request_queue (_on_closing s).2) = q_log (request_queue s) ++ [ReqQuit] /\
   tk_frame s (_on_closing s).2) /\
  (on_quit s).1 = Returns () /\
  (engine s = None -> on_quit s = (Returns (), s)) /\
  (forall h, engine s = Some h ->
     (on_quit s).2 = called (quit h (world s)).2 (EvQuit h (quit h (world s)).1) s) /\
  (forall q, engine_thread s = Running ->
     q_get (request_queue s) = Some (ReqQuit, q) ->
     worker_iteration s =
       set_engine_thread Finished (on_quit (set_request_queue q s)).2) /\
  (engine_thread s = Finished -> worker_iteration s = s) /\
  (engine_thread s = Running ->
   q_taken (request_queue s) = length (q_log (request_queue s)) ->
   let s' := worker_iteration (_on_closing s).2 in
   engine_thread s' = Finished /\
   engine s' = engine s /\
   trace s' = trace s ++ match engine s with
                         | Some h => [EvQuit h (quit h (world s)).1]
                         | None => []
                         end) /\
  (forall e, engine_thread (_async_engine_handler n once) <> Crashed e) /\
  (forall e, engine_thread (_async_engine_handler n twice) <> Crashed e) /\
  later_requests [ReqQuit] (_async_engine_handler n once) (_async_engine_handler n twice).
Proof.
  intros s0 once twice.
  assert (Hclosed : forall s1, destroyed (gui (_on_closing s1).2) = true).
  { intros s1. rewrite _on_closing_unfold. cbv zeta. unfold destroy.
    by destruct (destroyed (gui s1)) eqn:E. }
  assert (Hlog : forall s1, q_log (request_queue (_on_closing s1).2) =
                            q_log (request_queue s1) ++ [ReqQuit]).
  { intros s1. rewrite _on_closing_unfold. cbv zeta.
    by destruct (destroyed (gui s1)). }
  split.
  { rewrite _on_closing_unfold. cbv zeta. subst s0.
    rewrite destroyed_run. cbn. by destruct (closes before). }
  split.
  { rewrite _on_closing_unfold. cbv zeta. subst once.
    by rewrite destroyed_run, Hclosed. }
  split. { split; [apply Hclosed|]. split; [apply Hlog|apply _on_closing_frame]. }
  split; [by rewrite on_quit_unfold|].
  split. { intros He. by rewrite on_quit_unfold, He. }
  split. { intros h He. by rewrite on_quit_unfold, He. }
  split.
  { intros q Hrun Hget. unfold worker_iteration. rewrite Hrun, Hget.
    unfold break. by rewrite on_quit_unfold. }
  split. { intros Hfin. unfold worker_iteration. by rewrite Hfin. }
  split.
  { intros Hrun Hdrained s'. subst s'.
    destruct (_on_closing_frame s) as (_ & He & Hth & Hw & Htr & _).
    assert (Hget : q_get (request_queue (_on_closing s).2) =
                   Some (ReqQuit, {| q_log := q_log (request_queue s) ++ [ReqQuit];
                                     q_taken := S (length (q_log (request_queue s))) |})).
    { rewrite _on_closing_unfold. cbv zeta.
      destruct (destroyed (gui s)); cbn; by apply q_get_put_drained. }
    unfold worker_iteration. rewrite Hth, Hrun, Hget.
    unfold break. rewrite on_quit_unfold. cbn [fst snd].
    change (engine (set_request_queue ?q ?x)) with (engine x). rewrite He.
    destruct (engine s) as [h|]; cbn; rewrite ?Hw, ?Htr, ?He, ?app_nil_r; done. }
  assert (Honce : once = run pf (before ++ Window_closed :: between) (__init__ pf w)).
  { by rewrite run_app. }
  assert (Hinv : session_inv once) by (rewrite Honce; apply session_inv_run).
  assert (Hin : ReqQuit ∈ q_log (request_queue once)).
  { subst once. destruct (request_log_grows pf between (_on_closing s0).2) as [new ->].
    rewrite Hlog. set_solver. }
  assert (Hlater : later_requests [ReqQuit] once twice).
  { destruct (_on_closing_frame once) as (Hb & He & Hth & Hw & Htr & Hres & Htk & _).
    subst twice. unfold later_requests. rewrite Hlog.
    assert (Hbs : boards (_on_closing once).2 = boards once /\
                  result_queue (_on_closing once).2 = result_queue once).
    { rewrite _on_closing_unfold. cbv zeta. by destruct (destroyed (gui once)). }
    destruct Hbs as [Hbs Hrq]. rewrite Hrq. repeat split; done. }
  destruct (_async_engine_handler_later [ReqQuit] n once twice Hlater Hinv Hin)
    as ((_ & _ & _ & Hth & _) & (_ & _ & Hthr) & _).
  split; [|split].
  - intros e He. by rewrite He in Hthr.
  - intros e He. rewrite Hth in He. by rewrite He in Hthr.
  - by apply _async_engine_handler_later.
Qed.
End Proofs.

(** * Concrete runs on the scripted engine *)

(** An analysis requested before any connect: the one request waiting
    is answered by the error, and no call is made. *)
Lemma analyze_without_engine_witness :
  let s := run sim_platform [Analyze_pressed] (sim_start None) in
  engine s = None /\
  q_log (result_queue (worker_iteration s)) = [error "Engine is not connected."] /\
  trace (worker_iteration s) = [] /\
  engine_thread (worker_iteration s) = Running.
Proof.
  intros s. split; [reflexivity|].
  assert (Hs : engine_thread s = Running) by reflexivity.
  assert (Hq : q_get (request_queue s) =
               Some (ReqAnalyze 2%positive (2 # 1),
                     {| q_log := [ReqAnalyze 2%positive (2 # 1)]; q_taken := 1 |}))
    by (vm_compute; reflexivity).
  destruct (analyze_without_engine s _ _ _ Hs Hq eq_refl) as (_ & Hres & Htr & _ & _ & Hth).
  rewrite Hres, Htr, Hth. done.
Defined.

(** A mate in three reported for White on White's move is shown as
    "Mate in 3", also when the live board has Black to move by then. *)
Lemma score_is_from_the_analyzed_side_witness :
  let s := sim_analysis_pending (Some sim_mate_info) in
  engine s = Some 1%nat /\
  boards s !! 2%positive = Some starting_board /\
  exists r,
    q_log (result_queue (on_analyze 2%positive (2 # 1) s).2) =
      [connect_success; analysis_result r] /\
    evaluation_label (_update_gui_with_analysis r chess.BLACK (gui s)) =
      (MateIn 3, tone_success).
Proof.
  intros s.
  assert (He : engine s = Some 1%nat) by (vm_compute; reflexivity).
  assert (Hb : boards s !! 2%positive = Some starting_board) by (vm_compute; reflexivity).
  split; [exact He|]. split; [exact Hb|].
  destruct (score_is_from_the_analyzed_side s 1%nat 2%positive (2 # 1) starting_board
              sim_mate_info (world s)
              {| chess.relative := chess.Mate 3; chess.pov_turn := chess.WHITE |}
              chess.BLACK (gui s) He Hb)
    as (r & Hres & _ & _ & _ & _ & Hmate & _); [vm_compute; reflexivity|reflexivity|].
  exists r. split; [exact Hres|]. apply Hmate; [reflexivity|lia].
Defined.

(** A path that names no file and no command: the dialog, and nothing
    else. *)
Lemma invalid_executable_rejected_witness :
  let s := sim_connected None in
  isfile sim_platform "/no/such/engine" = false /\
  which sim_platform "/no/such/engine" = None /\
  _connect_to_stockfish sim_platform " /no/such/engine" s =
    set_gui (showerror "Error" invalid_executable_text (gui s)) s.
Proof.
  intros s. split; [reflexivity|]. split; [reflexivity|].
  apply (proj1 (invalid_executable_rejected_before_submission
                  sim_platform " /no/such/engine" "" s)).
  - left. reflexivity.
  - intros resolved Hw. discriminate Hw.
Defined.

(** C3 as stated fails: with an engine connected, a connect attempt on
    a path that does not exist puts no request, so the worker produces no
    [connect_fail], and the session still holds its handle. *)
Lemma connect_with_invalid_path_counterexample :
  let s0 := sim_connected None in
  let s1 := _async_engine_handler 3
              (_connect_to_stockfish sim_platform "/no/such/engine" s0) in
  (isfile sim_platform "/no/such/engine" = false /\
   which sim_platform "/no/such/engine" = None) /\
  engine s0 = Some 1%nat /\
  engine s1 = Some 1%nat /\
  q_log (result_queue s1) = [connect_success] /\
  q_log (request_queue s1) = [ReqConnect "/usr/games/stockfish"] /\
  ~ (engine s1 = None /\ exists cause, connect_fail cause ∈ q_log (result_queue s1)).
Proof.
  intros s0 s1.
  split; [split; reflexivity|].
  split; [vm_compute; reflexivity|].
  split; [vm_compute; reflexivity|].
  split; [vm_compute; reflexivity|].
  split; [vm_compute; reflexivity|].
  intros [Hnone _]. vm_compute in Hnone. discriminate Hnone.
Qed.

(** The engine dies during the analysis: the error is reported, the
    worker goes on, the handle stays. *)
Lemma analysis_failure_is_reported_witness :
  let s := sim_analysis_pending None in
  let s' := worker_iteration s in
  engine s = Some 1%nat /\
  q_log (result_queue s') = [connect_success; error ("Analysis failed: " +:+ died)] /\
  engine_thread s' = Running /\
  engine s' = Some 1%nat.
Proof.
  intros s s'.
  assert (He : engine s = Some 1%nat) by (vm_compute; reflexivity).
  split; [exact He|].
  assert (Hrun : engine_thread s = Running) by (vm_compute; reflexivity).
  assert (Hq : q_get (request_queue s) =
               Some (ReqAnalyze 2%positive (2 # 1),
                     {| q_log := q_log (request_queue s); q_taken := 2 |}))
    by (vm_compute; reflexivity).
  assert (Hb : boards s !! 2%positive = Some starting_board) by (vm_compute; reflexivity).
  assert (Ha : analyse 1%nat starting_board {| chess.time := 2 # 1 |} (world s) =
               (Raises died, sim_kill 1%nat (world s))) by (vm_compute; reflexivity).
  destruct (analysis_failure_is_reported s 1%nat 2%positive (2 # 1) starting_board died
              _ _ Hrun Hq He Hb Ha) as (Hres & Hth & He' & _).
  split; [exact Hres|]. split; [exact Hth|exact He'].
Defined.

(** C6 as stated fails: after an analysis in which the engine process
    died, the worker has made no further call and the session still
    holds the handle of the dead process. *)
Lemma liveness_not_verified_counterexample :
  let s := sim_analysis_pending None in
  let s' := worker_iteration s in
  (engine s = Some 1%nat /\ running (world s) 1%nat = true) /\
  q_log (result_queue s') = [connect_success; error ("Analysis failed: " +:+ died)] /\
  trace s' =
    [EvPopen "/usr/games/stockfish" (Returns 1%nat);
     EvPing 1%nat (Returns ());
     EvAnalyse 1%nat starting_board {| chess.time := 2 # 1 |} (Raises died)] /\
  running (world s') 1%nat = false /\
  engine s' = Some 1%nat /\
  ~ (running (world s') 1%nat = false -> engine s' = None).
Proof.
  intros s s'.
  split; [split; vm_compute; reflexivity|].
  split; [vm_compute; reflexivity|].
  split; [vm_compute; reflexivity|].
  split; [vm_compute; reflexivity|].
  split; [vm_compute; reflexivity|].
  intros Hclaim. assert (Hdead : running (world s') 1%nat = false) by (vm_compute; reflexivity).
  specialize (Hclaim Hdead). vm_compute in Hclaim. discriminate Hclaim.
Qed.

(** White is checkmated: the engine reports an empty line, the result
    carries "N/A". *)
Lemma empty_line_gives_sentinel_witness :
  let s := sim_analysis_pending (Some sim_mated_info) in
  default [] (chess.info_pv sim_mated_info) = [] /\
  exists r,
    q_log (result_queue (on_analyze 2%positive (2 # 1) s).2) =
      [connect_success; analysis_result r] /\
    ar_move r = Some "N/A" /\
    best_move_label (_update_gui_with_analysis r chess.WHITE (gui s)) = "N/A".
Proof.
  intros s. split; [reflexivity|].
  assert (He : engine s = Some 1%nat) by (vm_compute; reflexivity).
  assert (Hb : boards s !! 2%positive = Some starting_board) by (vm_compute; reflexivity).
  assert (Ha : analyse 1%nat starting_board {| chess.time := 2 # 1 |} (world s) =
               (Returns sim_mated_info, world s)) by (vm_compute; reflexivity).
  destruct (empty_line_gives_sentinel s 1%nat 2%positive (2 # 1) starting_board
              sim_mated_info (world s) chess.WHITE (gui s) He Hb Ha eq_refl)
    as (_ & r & Hres & Hmove & Hlabel).
  exists r. split; [exact Hres|]. split; [exact Hmove|exact Hlabel].
Defined.

(** A second connect: the first engine is quit before the second is
    launched, and only the second is running afterwards. *)
Example second_connect_run :
  let s := run sim_platform [Connect_pressed "stockfish"; Worker]
             (sim_connected None) in
  trace s =
    [EvPopen "/usr/games/stockfish" (Returns 1%nat); EvPing 1%nat (Returns ());
     EvQuit 1%nat (Returns ());
     EvPopen "/usr/games/stockfish" (Returns 2%nat); EvPing 2%nat (Returns ())] /\
  engine s = Some 2%nat /\
  sim_alive (world s) = [2%nat] /\
  replay None (trace s) = Some (Some 2%nat).
Proof. vm_compute. done. Qed.

(** The live board is changed after the request was submitted: the
    engine is still given the position that was on the board then. *)
Example snapshot_survives_edit :
  let black_to_move (b : chess.Board) :=
    {| chess.placement := "rnbqkbnr/pppppppp/8/8/4P3/8/PPPP1PPP/RNBQKBNR KQkq - 0 1";
       chess.turn := chess.BLACK;
       chess.move_stack := [e2e4] |} in
  let s := run sim_platform [Board_changed black_to_move; Worker]
             (sim_analysis_pending (Some sim_info)) in
  chess.turn <$> boards s !! board s = Some chess.BLACK /\
  last (trace s) =
    Some (EvAnalyse 1%nat starting_board {| chess.time := 2 # 1 |} (Returns sim_info)) /\
  last (q_log (result_queue s)) =
    Some (analysis_result {| ar_move := Some "e2e4";
                             ar_score := chess.info_score sim_info;
                             ar_turn := Some chess.WHITE |}).
Proof. vm_compute. done. Qed.

(** Closing the window of a connected session: the call returns, the
    worker quits the engine it holds and ends; closing once more raises
    and changes nothing but the request log. *)
Lemma shutdown_returns_once_and_ends_the_worker_witness :
  let s0 := run sim_platform [Connect_pressed " stockfish "; Worker; Poll]
              (__init__ sim_platform (sim_world None)) in
  let once := run sim_platform [Worker] (_on_closing s0).2 in
  (engine s0 = Some 1%nat /\ engine_thread s0 = Running) /\
  (_on_closing s0).1 = Returns () /\
  (_on_closing once).1 = Raises application_destroyed /\
  engine_thread once = Finished /\
  trace once = trace s0 ++ [EvQuit 1%nat (Returns ())] /\
  later_requests [ReqQuit] once (_on_closing once).2.
Proof.
  intros s0 once.
  pose proof (shutdown_returns_once_and_ends_the_worker sim_platform (sim_world None)
              [Connect_pressed " stockfish "; Worker; Poll] [Worker] 0 s0) as Hthm.
  cbv zeta in Hthm. fold s0 in Hthm. fold once in Hthm.
  destruct Hthm as (Hfirst & Hsecond & _ & _ & _ & _ & _ & _ & Hends & _ & _ & Hsame).
  assert (He : engine s0 = Some 1%nat) by (vm_compute; reflexivity).
  assert (Hrun : engine_thread s0 = Running) by (vm_compute; reflexivity).
  assert (Hdrained : q_taken (request_queue s0) = length (q_log (request_queue s0)))
    by (vm_compute; reflexivity).
  destruct (Hends Hrun Hdrained) as (Hfin & _ & Htr).
  rewrite He in Htr.
  assert (Hq : (quit 1%nat (world s0)).1 = Returns ()) by (vm_compute; reflexivity).
  rewrite Hq in Htr.
  split; [split; [exact He|exact Hrun]|].
  split; [exact Hfirst|]. split; [exact Hsecond|].
  split; [exact Hfin|]. split; [exact Htr|exact Hsame].
Defined.

(** C8 as stated fails: closing the window a second time raises, whether
    no engine was ever connected or the worker has quit the engine it
    held and ended. *)
Lemma second_shutdown_raises_counterexample :
  let never := sim_start None in
  let connected := run sim_platform [Window_closed; Worker] (sim_polled None) in
  (engine never = None /\
   (_on_closing never).1 = Returns () /\
   (_on_closing (_on_closing never).2).1 = Raises application_destroyed) /\
  (engine connected = Some 1%nat /\
   engine_thread connected = Finished /\
   (_on_closing connected).1 = Raises application_destroyed) /\
  ~ (forall acts, (_on_closing (run sim_platform acts never)).1 = Returns ()).
Proof.
  intros never connected.
  split; [split; [|split]; vm_compute; reflexivity|].
  split; [split; [|split]; vm_compute; reflexivity|].
  intros Hclaim. specialize (Hclaim [Window_closed]).
  vm_compute in Hclaim. discriminate Hclaim.
Qed.

(** Closing twice, with a request behind the first [quit]: the worker
    quits the engine once and ends; what was put after is never
    taken. *)
Example shutdown_twice_run :
  let s := run sim_platform
             [Window_closed; Analyze_pressed; Window_closed; Worker; Worker; Worker; Worker]
             (sim_connected None) in
  engine_thread s = Finished /\
  trace s =
    [EvPopen "/usr/games/stockfish" (Returns 1%nat); EvPing 1%nat (Returns ());
     EvQuit 1%nat (Returns ())] /\
  q_done (request_queue s) = [ReqConnect "/usr/games/stockfish"; ReqQuit] /\
  q_pending (request_queue s) = [ReqAnalyze 2%positive (2 # 1); ReqQuit] /\
  q_log (result_queue s) = [connect_success].
Proof. vm_compute. done. Qed.

(** * Further properties: resolving and launching the engine *)

(** X1.  [_resolve_engine_path] returns a path exactly in two cases: the
    text names an executable file, and the path is its absolute form;
    or the text names no file, [shutil.which] resolves it, and what it
    resolves to is an executable file.  Empty text, a file that is not
    executable (the search path is then not consulted), and a command
    that resolves to nothing executable all give [None]. *)
Theorem _resolve_engine_path_spec pf user_value r :
  _resolve_engine_path pf user_value = Some r <->
  user_value <> "" /\
  ((isfile pf user_value = true /\ access_X_OK pf user_value = true /\
    r = abspath pf user_value) \/
   (isfile pf user_value = false /\ which pf user_value = Some r /\ r <> "" /\
    isfile pf r = true /\ access_X_OK pf r = true)).
Proof.
  unfold _resolve_engine_path, truthy.
  destruct (decide (user_value = "")) as [->|Hne].
  { split; [discriminate|]. by intros [? _]. }
  destruct (isfile pf user_value) eqn:Ef.
  - destruct (access_X_OK pf user_value) eqn:Ex.
    + split.
      * intros [= <-]. split; [done|]. by left.
      * intros [_ [(_ & _ & ->)|(? & _)]]; [done|discriminate].
    + split; [discriminate|].
      intros [_ [(_ & ? & _)|(? & _)]]; discriminate.
  - destruct (which pf user_value) as [r'|] eqn:Ew.
    2:{ split; [discriminate|].
        intros [_ [(? & _)|(_ & ? & _)]]; discriminate. }
    destruct (decide (r' = "")) as [->|Hr]; cbn.
    { split; [discriminate|].
      intros [_ [(? & _)|(_ & [= <-] & ? & _)]]; [discriminate|done]. }
    destruct (isfile pf r') eqn:Ef'; cbn.
    2:{ split; [discriminate|].
        intros [_ [(? & _)|(_ & [= <-] & _ & ? & _)]]; [discriminate|congruence]. }
    destruct (access_X_OK pf r') eqn:Ex'.
    + split.
      * intros [= <-]. split; [done|]. right. done.
      * intros [_ [(? & _)|(_ & [= <-] & _)]]; [discriminate|done].
    + split; [discriminate|].
      intros [_ [(? & _)|(_ & [= <-] & _ & _ & ?)]]; [discriminate|congruence].
Qed.
Section Launches.
Context {W : Type} `{EngineLib W}.
Implicit Types (s : App W) (pf : Platform).

Lemma launched_app tr tr' : launched (tr ++ tr') = launched tr ++ launched tr'.
Proof. apply omap_app. Qed.

Lemma connect_paths_app reqs reqs' :
  connect_paths (reqs ++ reqs') = connect_paths reqs ++ connect_paths reqs'.
Proof. apply omap_app. Qed.

Lemma on_connect_launched sf_path s :
  launched (trace (on_connect sf_path s).2) = launched (trace s) ++ [sf_path].
Proof.
  unfold_worker. cbn. destruct (engine s) as [h|]; cbn;
    repeat split_call; rewrite !launched_app; cbn; by rewrite ?app_nil_r.
Qed.

Lemma on_analyze_launched l t s :
  launched (trace (on_analyze l t s).2) = launched (trace s).
Proof.
  unfold_worker. cbn. destruct (engine s) as [h|]; cbn; [|done].
  destruct (boards s !! l) as [b|] eqn:Eb; cbn; [|done].
  split_call; rewrite ?Eb; cbn; rewrite launched_app; cbn; by rewrite app_nil_r.
Qed.

Lemma on_quit_launched s : launched (trace (on_quit s).2) = launched (trace s).
Proof.
  unfold_worker. cbn. destruct (engine s) as [h|]; cbn; [|done].
  split_call; rewrite launched_app; cbn; by rewrite app_nil_r.
Qed.

Lemma launches_inv_tk s s' : tk_frame s s' -> launches_inv s -> launches_inv s'.
Proof.
  intros (_ & _ & Ht & _ & Htr & _ & Htk & new & Hlog) (Hle & Hl & Hth).
  unfold launches_inv, q_done.
  rewrite Htk, Hlog, Htr, Ht, length_app, take_app_le by done.
  split; [lia|done].
Qed.

Lemma launches_inv_act pf a s : launches_inv s -> launches_inv (act pf a s).
Proof.
  intros Hinv.
  destruct a; try (eapply launches_inv_tk; [by apply tk_frame_act|done]).
  destruct Hinv as (Hle & Hl & Hth).
  cbn. unfold worker_iteration.
  destruct (engine_thread s) eqn:Ethr; [|by unfold launches_inv; rewrite Ethr..].
  destruct (q_get (request_queue s)) as [[req q]|] eqn:Eget;
    [|by unfold launches_inv; rewrite Ethr].
  pose proof (q_done_get _ _ _ Eget) as Hdone.
  apply q_get_Some in Eget as (Hx & Hlog & Htk).
  assert (Hlt : (q_taken (request_queue s) < length (q_log (request_queue s)))%nat)
    by (by eapply lookup_lt_Some).
  destruct req as [sf_path|l t|].
  - pose proof (on_connect_launched sf_path (set_request_queue q s)) as Hla.
    destruct (on_connect_handled sf_path (set_request_queue q s))
      as (evs & res & Hret & (_ & _ & _ & Hth' & Hq & _) & _).
    destruct (on_connect _ _) as [r s2]. cbn [fst snd] in *. subst r.
    unfold continue, launches_inv. cbn [fst snd].
    rewrite Hq, Hla, Hth'. cbn [request_queue set_request_queue trace engine_thread].
    rewrite Hlog, Htk, Hdone, connect_paths_app, Hl, Ethr. cbn.
    split; [lia|done].
  - pose proof (on_analyze_launched l t (set_request_queue q s)) as Hla.
    destruct (on_analyze_handled l t (set_request_queue q s))
      as (evs & res & Hret & (_ & _ & _ & Hth' & Hq & _) & _).
    destruct (on_analyze _ _ _) as [r s2]. cbn [fst snd] in *. subst r.
    unfold continue, launches_inv. cbn [fst snd].
    rewrite Hq, Hla, Hth'. cbn [request_queue set_request_queue trace engine_thread].
    rewrite Hlog, Htk, Hdone, connect_paths_app, Hl, Ethr. cbn.
    rewrite app_nil_r. split; [lia|done].
  - pose proof (on_quit_launched (set_request_queue q s)) as Hla.
    destruct (on_quit_handled (set_request_queue q s))
      as (evs & Hret & (_ & _ & _ & Hth' & Hq & _) & _).
    destruct (on_quit _) as [r s2]. cbn [fst snd] in *. subst r.
    unfold break, launches_inv. cbn [fst snd engine_thread trace request_queue set_engine_thread].
    rewrite Hq, Hla. cbn [request_queue set_request_queue trace engine_thread].
    rewrite Hlog, Htk, Hdone, connect_paths_app, Hl. cbn.
    rewrite app_nil_r. split; [lia|done].
Qed.

(** Every connect request put was vetted. *)
Lemma vetted_requests_act pf a s :
  Forall (vetted pf) (connect_paths (q_log (request_queue s))) ->
  Forall (vetted pf) (connect_paths (q_log (request_queue (act pf a s)))).
Proof.
  intros Hv. destruct a as [v| |f| | |]; cbn.
  - unfold _connect_to_stockfish.
    destruct (_resolve_engine_path pf (strip pf v)) as [r|] eqn:Er; cbn; [|done].
    destruct (decide (r = "")); cbn; [done|].
    rewrite connect_paths_app. apply Forall_app; split; [done|].
    constructor; [|done]. split; [done|]. by exists v.
  - unfold _start_analysis, board_copy. cbn.
    destruct (boards s !! board s); cbn; [|done].
    rewrite connect_paths_app. cbn. by rewrite app_nil_r.
  - done.
  - unfold _check_result_queue.
    destruct (q_get (result_queue s)) as [[msg q]|]; [|done]. by destruct msg.
  - rewrite _on_closing_unfold. cbv zeta.
    destruct (destroyed (gui s)); cbn; rewrite connect_paths_app; cbn;
      by rewrite app_nil_r.
  - by destruct (worker_iteration_frame s) as (_ & _ & _ & ->).
Qed.

(** X2.  In every reachable state the launches the worker has made are,
    in order, the connect requests it has taken, and each was made on a
    non-empty path that [_resolve_engine_path] returned for some text of
    the entry: the worker never launches what the callback has not
    checked. *)
Theorem only_vetted_paths_are_launched pf (w : W) acts :
  let s := run pf acts (__init__ pf w) in
  launched (trace s) = connect_paths (q_done (request_queue s)) /\
  Forall (vetted pf) (launched (trace s)).
Proof.
  intros s.
  assert (Hinv : launches_inv s /\
                 Forall (vetted pf) (connect_paths (q_log (request_queue s)))).
  { apply (run_invariant pf (fun s => launches_inv s /\
             Forall (vetted pf) (connect_paths (q_log (request_queue s))))).
    - intros a s' [Hl Hv]. split; [by apply launches_inv_act|by apply vetted_requests_act].
    - split; [|constructor]. repeat split; cbn; [lia|done]. }
  destruct Hinv as [(_ & Hl & _) Hv]. split; [done|]. rewrite Hl.
  rewrite <- (take_drop (q_taken (request_queue s)) (q_log (request_queue s))) in Hv.
  rewrite connect_paths_app in Hv. by apply Forall_app in Hv as [Hv _].
Qed.
End Launches.

(** * Further properties: the session from button to display *)

Section Display.
Context {W : Type} `{EngineLib W}.
Implicit Types (s : App W) (pf : Platform).

Lemma truthy_Some p : p <> "" -> truthy (Some p) = true.
Proof. intros Hp. unfold truthy. by rewrite decide_False. Qed.

Lemma quit_existing_world s :
  world (quit_existing s).2 = world_after_quit s /\
  engine (quit_existing s).2 = None /\
  gui (quit_existing s).2 = gui s /\
  result_queue (quit_existing s).2 = result_queue s /\
  request_queue (quit_existing s).2 = request_queue s /\
  engine_thread (quit_existing s).2 = engine_thread s /\
  boards (quit_existing s).2 = boards s /\ board (quit_existing s).2 = board s.
Proof.
  unfold world_after_quit. unfold_worker. cbn. destruct (engine s) as [h|] eqn:E; cbn.
  - by split_call.
  - done.
Qed.

Lemma launch_succeeds sf_path s h w2 w3 :
  popen_uci sf_path (world s) = (Returns h, w2) ->
  ping h w2 = (Returns (), w3) ->
  launch sf_path s =
    (Returns (),
     set_result_queue (q_put connect_success (result_queue s))
       (called w3 (EvPing h (Returns ()))
          (set_engine (Some h) (called w2 (EvPopen sf_path (Returns h)) s)))).
Proof.
  intros Hp Hg. unfold_worker. cbn. rewrite Hp. cbn. by rewrite Hg.
Qed.

(** X3.  Connect, from entry to display.  With both queues drained, a
    press of Connect on a text that resolves to [p], one pass of the
    worker and one poll leave the queues drained again and the request
    in the log.  If the launch and the handshake succeed, the session
    holds the new handle, the Analyze button is enabled and the status
    reads "Status: Connected!"; if either raises [e], the session holds
    no handle, the button is disabled, and one dialog shows [e].  The
    launch happens in the world left by quitting the engine held
    before. *)
Theorem connect_round_trip pf v p s :
  idle s ->
  _resolve_engine_path pf (strip pf v) = Some p ->
  p <> "" ->
  let s' := run pf [Connect_pressed v; Worker; Poll] s in
  let w1 := world_after_quit s in
  idle s' /\
  q_log (request_queue s') = q_log (request_queue s) ++ [ReqConnect p] /\
  (forall h w2 w3,
     popen_uci p w1 = (Returns h, w2) ->
     ping h w2 = (Returns (), w3) ->
     engine s' = Some h /\ world s' = w3 /\
     analyze_button (gui s') = true /\
     sf_status_label (gui s') = ("Status: Connected!", tone_success) /\
     dialogs (gui s') = dialogs (gui s)) /\
  (forall e,
     (popen_uci p w1).1 = Raises e \/
     (exists h, (popen_uci p w1).1 = Returns h /\
                (ping h (popen_uci p w1).2).1 = Raises e) ->
     engine s' = None /\
     analyze_button (gui s') = false /\
     sf_status_label (gui s') = ("Status: Connection failed", tone_error) /\
     dialogs (gui s') =
       dialogs (gui s) ++
       [("Connection Error", "Could not connect to Stockfish:" +:+ newline +:+ e)]).
Proof.
  intros (Hrun & Hreq & Hres) Hresolve Hp s' w1.
  set (s1 := _connect_to_stockfish pf v s).
  assert (Hs1 : s1 = set_gui (_set_status "Attempting to connect to Stockfish..."
                                tone_warning (gui s))
                       (set_request_queue (q_put (ReqConnect p) (request_queue s)) s)).
  { subst s1. unfold _connect_to_stockfish. by rewrite Hresolve, truthy_Some. }
  set (q := {| q_log := q_log (request_queue s) ++ [ReqConnect p];
               q_taken := S (length (q_log (request_queue s))) |}).
  set (s2 := set_request_queue q s1).
  assert (Hw : worker_iteration s1 = continue (launch p (quit_existing s2).2)).
  { assert (Hth1 : engine_thread s1 = Running) by (by rewrite Hs1).
    assert (Hget : q_get (request_queue s1) = Some (ReqConnect p, q)).
    { rewrite Hs1. cbn [request_queue set_gui set_request_queue].
      by rewrite (q_get_put_drained _ _ Hreq). }
    unfold worker_iteration. rewrite Hth1, Hget. fold s2.
    by rewrite on_connect_launch. }
  destruct (quit_existing_world s2) as (Hqw & Hqe & Hqg & Hqr & Hqq & Hqt & _).
  assert (Hw1 : world (quit_existing s2).2 = w1).
  { rewrite Hqw. subst s2 w1. by rewrite Hs1. }
  assert (Hg2 : gui s2 = _set_status "Attempting to connect to Stockfish..."
                           tone_warning (gui s)) by (subst s2; by rewrite Hs1).
  assert (Hr2 : result_queue s2 = result_queue s) by (subst s2; by rewrite Hs1).
  assert (Hq2 : request_queue s2 = q) by done.
  assert (Ht2 : engine_thread s2 = Running) by (subst s2; by rewrite Hs1).
  rewrite Hg2 in Hqg. rewrite Hr2 in Hqr. rewrite Hq2 in Hqq. rewrite Ht2 in Hqt.
  set (s3 := (quit_existing s2).2) in *. clearbody s3. clear Hqw.
  assert (Hs' : s' = _check_result_queue (worker_iteration s1)) by done.
  destruct (popen_uci p w1) as [[h|e] w2] eqn:Epo.
  - destruct (ping h w2) as [[[]|e] w3] eqn:Epi.
    + rewrite <- Hw1 in Epo.
      rewrite (launch_succeeds _ _ _ _ _ Epo Epi) in Hw. unfold continue in Hw. cbn in Hw.
      rewrite Hs', Hw. unfold _check_result_queue.
      cbn [result_queue set_result_queue called set_engine].
      rewrite Hqr, (q_get_put_drained _ _ Hres). unfold idle. cbn. rewrite Hqt, Hqq, Hqg. cbn.
      rewrite !length_app. cbn.
      split; [repeat split; lia|]. split; [done|]. split.
      * intros h' w2' w3' [= <- <-] Hpi. rewrite Epi in Hpi. by injection Hpi as <-.
      * intros e [[=]|(h' & [= <-] & Hpe)]. cbn in Hpe. rewrite Epi in Hpe. done.
    + rewrite <- Hw1 in Epo.
      assert (Hp1 : (popen_uci p (world s3)).1 = Returns h) by (by rewrite Epo).
      assert (Hp2 : (ping h (popen_uci p (world s3)).2).1 = Raises e).
      { rewrite Epo. cbn. by rewrite Epi. }
      rewrite (launch_ping_raises _ _ _ _ Hp1 Hp2) in Hw. unfold continue in Hw. cbn in Hw.
      rewrite Hs', Hw. unfold _check_result_queue.
      cbn [result_queue set_result_queue called set_engine].
      rewrite Hqr, (q_get_put_drained _ _ Hres). unfold idle. cbn. rewrite Hqt, Hqq, Hqg. cbn.
      rewrite !length_app. cbn.
      split; [repeat split; lia|]. split; [done|]. split.
      * intros h' w2' w3' [= <- <-] Hpi. rewrite Epi in Hpi. discriminate Hpi.
      * intros e' [[=]|(h' & [= <-] & Hpe)]. cbn in Hpe. rewrite Epi in Hpe.
        cbn in Hpe. by injection Hpe as <-.
  - rewrite <- Hw1 in Epo.
    assert (Hp1 : (popen_uci p (world s3)).1 = Raises e) by (by rewrite Epo).
    rewrite (launch_popen_raises _ _ _ Hp1) in Hw. unfold continue in Hw. cbn in Hw.
    rewrite Hs', Hw. unfold _check_result_queue.
    cbn [result_queue set_result_queue called set_engine].
    rewrite Hqr, (q_get_put_drained _ _ Hres). unfold idle. cbn. rewrite Hqt, Hqq, Hqg. cbn.
    rewrite !length_app. cbn.
    split; [repeat split; lia|]. split; [done|]. split.
    * intros h' w2' w3' [=].
    * intros e' [[= <-]|(h' & [=] & _)]. done.
Qed.

Lemma _start_analysis_live s b :
  boards s !! board s = Some b ->
  _start_analysis s =
    set_request_queue
      (q_put (ReqAnalyze (fresh (dom (boards s))) (2 # 1)) (request_queue s))
      (set_boards (<[fresh (dom (boards s)) := b]> (boards s))
         (set_gui (config_evaluation_label (Plain "...") (evaluation_label (gui s)).2
                     (config_best_move_label "..."
                        (config_analyze_button false
                           (_set_status "Analyzing position..." tone_warning (gui s)))))
            s)).
Proof. intros Hb. unfold _start_analysis, board_copy. cbn. by rewrite Hb. Qed.

Lemma fresh_board_is_new s b :
  boards s !! board s = Some b -> fresh (dom (boards s)) <> board s.
Proof.
  intros Hb Heq. apply (is_fresh (dom (boards s))). rewrite Heq.
  apply elem_of_dom. eauto.
Qed.



(** X5.  An analysis that fails, from button to display.  With both
    queues drained, pressing Analyze with no engine connected, or with an
    engine whose [analyse] raises, ends after one pass and one poll with
    one error dialog carrying the message, the status "Error: ...", the
    Analyze button enabled again (also when no engine is connected) and
    the two labels still reading "...": they are not reset.  The handle
    is as before, and without an engine no call is made. *)
Theorem failed_analysis_is_shown pf s b :
  idle s ->
  boards s !! board s = Some b ->
  let s' := run pf [Analyze_pressed; Worker; Poll] s in
  let shown (msg : string) :=
    idle s' /\
    dialogs (gui s') = dialogs (gui s) ++ [("Error", msg)] /\
    status_label (gui s') = ("Error: " +:+ msg, tone_error) /\
    analyze_button (gui s') = true /\
    best_move_label (gui s') = "..." /\
    (evaluation_label (gui s')).1 = Plain "..." /\
    engine s' = engine s in
  (engine s = None -> shown "Engine is not connected." /\ trace s' = trace s) /\
  (forall h e w',
     engine s = Some h ->
     analyse h b {| chess.time := 2 # 1 |} (world s) = (Raises e, w') ->
     shown ("Analysis failed: " +:+ e)).
Proof.
  intros (Hrun & Hreq & Hres) Hb s' shown.
  pose proof (_start_analysis_live s b Hb) as Hpr.
  set (pressed := _start_analysis s) in *.
  set (l := fresh (dom (boards s))) in *.
  set (q := {| q_log := q_log (request_queue s) ++ [ReqAnalyze l (2 # 1)];
               q_taken := S (length (q_log (request_queue s))) |}).
  set (s2 := set_request_queue q pressed).
  assert (Hth1 : engine_thread pressed = Running) by (by rewrite Hpr).
  assert (Hget : q_get (request_queue pressed) = Some (ReqAnalyze l (2 # 1), q)).
  { rewrite Hpr. cbn [request_queue set_gui set_request_queue].
    by rewrite (q_get_put_drained _ _ Hreq). }
  assert (Hs' : s' = _check_result_queue (worker_iteration pressed)) by done.
  assert (Hr2 : result_queue s2 = result_queue s) by (subst s2; by rewrite Hpr).
  split.
  - intros He.
    assert (Hw : worker_iteration pressed =
                 set_result_queue
                   (q_put (error "Engine is not connected.") (result_queue s2)) s2).
    { unfold worker_iteration. rewrite Hth1, Hget. fold s2.
      unfold_worker. cbn. subst s2. rewrite Hpr. cbn. by rewrite He. }
    subst shown. cbn beta. rewrite Hs', Hw. unfold _check_result_queue.
    cbn [result_queue set_result_queue].
    rewrite Hr2, (q_get_put_drained _ _ Hres). unfold idle.
    subst s2. rewrite Hpr. cbn. rewrite Hrun, !length_app. cbn.
    repeat split; try done; lia.
  - intros h e w' He Ha.
    assert (He2 : engine s2 = Some h) by (subst s2; by rewrite Hpr).
    assert (Hb2 : boards s2 !! l = Some b).
    { subst s2. rewrite Hpr. cbn. by rewrite lookup_insert_eq. }
    assert (Ha2 : analyse h b {| chess.time := 2 # 1 |} (world s2) = (Raises e, w')).
    { subst s2. by rewrite Hpr. }
    assert (Hw : worker_iteration pressed =
                 set_result_queue
                   (q_put (error ("Analysis failed: " +:+ e)) (result_queue s2))
                   (called w' (EvAnalyse h b {| chess.time := 2 # 1 |} (Raises e)) s2)).
    { unfold worker_iteration. rewrite Hth1, Hget. fold s2.
      by rewrite (on_analyze_raises _ _ _ _ _ _ _ He2 Hb2 Ha2). }
    subst shown. cbn beta. rewrite Hs', Hw. unfold _check_result_queue.
    cbn [result_queue set_result_queue called].
    rewrite Hr2, (q_get_put_drained _ _ Hres). unfold idle.
    subst s2. rewrite Hpr. cbn. rewrite Hrun, !length_app. cbn.
    repeat split; try done; lia.
Qed.

Lemma q_get_pending {A} (q : Queue A) x rest :
  q_pending q = x :: rest ->
  q_get q = Some (x, {| q_log := q_log q; q_taken := S (q_taken q) |}) /\
  q_pending {| q_log := q_log q; q_taken := S (q_taken q) |} = rest.
Proof.
  unfold q_pending, q_get. intros Hp.
  assert (Hl : q_log q !! q_taken q = Some x).
  { rewrite <- (Nat.add_0_r (q_taken q)), <- lookup_drop, Hp. done. }
  rewrite Hl. split; [done|]. cbn.
  rewrite (drop_S _ _ _ Hl) in Hp. congruence.
Qed.

(** X6.  A reconnect that fails costs the engine that worked.  With a
    handle [h] held, a connect request whose launch raises and an
    analyze request behind it are answered, in two passes, by
    [connect_fail] and then by the not-connected error: the engine held
    was quit before the launch was tried, and nothing is called for the
    analysis. *)
Theorem failed_reconnect_leaves_no_engine s h sf_path l t rest e :
  engine_thread s = Running ->
  engine s = Some h ->
  q_pending (request_queue s) = ReqConnect sf_path :: ReqAnalyze l t :: rest ->
  (popen_uci sf_path (quit h (world s)).2).1 = Raises e ->
  let s' := _async_engine_handler 2 s in
  engine s' = None /\
  engine_thread s' = Running /\
  trace s' = trace s ++ [EvQuit h (quit h (world s)).1; EvPopen sf_path (Raises e)] /\
  q_log (result_queue s') =
    q_log (result_queue s) ++ [connect_fail e; error "Engine is not connected."] /\
  q_pending (request_queue s') = rest.
Proof.
  intros Hrun He Hpend Hpo s'.
  destruct (q_get_pending _ _ _ Hpend) as [Hget1 Hpend1].
  set (q1 := {| q_log := q_log (request_queue s); q_taken := S (q_taken (request_queue s)) |}) in *.
  destruct (q_get_pending _ _ _ Hpend1) as [Hget2 Hpend2].
  set (q2 := {| q_log := q_log q1; q_taken := S (q_taken q1) |}) in *.
  set (s1 := set_request_queue q1 s).
  assert (Hq : quit_existing s1 =
               (Returns (), set_engine None
                  (called (quit h (world s)).2 (EvQuit h (quit h (world s)).1) s1))).
  { by rewrite (quit_existing_live s1 h He). }
  assert (H1 : worker_iteration s =
               set_result_queue (q_put (connect_fail e) (result_queue s))
                 (set_engine None
                    (called (popen_uci sf_path (quit h (world s)).2).2
                       (EvPopen sf_path (Raises e))
                       (set_engine None
                          (called (quit h (world s)).2 (EvQuit h (quit h (world s)).1) s1))))).
  { unfold worker_iteration. rewrite Hrun, Hget1. fold s1.
    rewrite on_connect_launch, Hq. cbn [snd].
    rewrite (launch_popen_raises sf_path _ e); [done|]. exact Hpo. }
  subst s'. change (_async_engine_handler 2 s) with (worker_iteration (worker_iteration s)).
  rewrite H1. set (s2 := set_result_queue _ _).
  assert (H2 : worker_iteration s2 =
               set_result_queue (q_put (error "Engine is not connected.") (result_queue s2))
                 (set_request_queue q2 s2)).
  { unfold worker_iteration.
    assert (Hth2 : engine_thread s2 = Running) by done.
    assert (Hg2 : q_get (request_queue s2) = Some (ReqAnalyze l t, q2)) by done.
    rewrite Hth2, Hg2. unfold_worker. by cbn. }
  rewrite H2. subst s2. cbn. rewrite <- !app_assoc. done.
Qed.

Lemma worker_iteration_frame' s :
  board (worker_iteration s) = board s /\
  boards (worker_iteration s) = boards s /\
  gui (worker_iteration s) = gui s /\
  q_log (request_queue (worker_iteration s)) = q_log (request_queue s) /\
  q_taken (result_queue (worker_iteration s)) = q_taken (result_queue s).
Proof.
  destruct (worker_iteration_frame s) as (Hb & Hbs & Hg & Hl).
  repeat split; try done.
  unfold worker_iteration.
  destruct (engine_thread s); [|done..].
  destruct (q_get (request_queue s)) as [[req q]|] eqn:Eget; [|done].
  destruct req as [sf_path|l t|].
  - destruct (on_connect_handled sf_path (set_request_queue q s))
      as (evs & res & Hret & (_ & _ & _ & _ & _ & Hq & _) & _).
    destruct (on_connect _ _) as [r s2]. cbn [fst snd] in *. subst r. exact Hq.
  - destruct (on_analyze_handled l t (set_request_queue q s))
      as (evs & res & Hret & (_ & _ & _ & _ & _ & Hq & _) & _).
    destruct (on_analyze _ _ _) as [r s2]. cbn [fst snd] in *. subst r. exact Hq.
  - destruct (on_quit_handled (set_request_queue q s))
      as (evs & Hret & (_ & _ & _ & _ & _ & Hq & _) & _).
    destruct (on_quit _) as [r s2]. cbn [fst snd] in *. subst r. exact Hq.
Qed.

(** X7.  Each thread keeps to its own state.  No sequence of Tk
    callbacks calls the engine, changes [self.engine], the worker thread
    or the world, puts a result or takes a request; no number of worker
    passes changes a board, a widget or the requests put, or takes a
    result. *)
Theorem threads_keep_to_their_own_state pf acts n s :
  let tk := run pf (filter (fun a => is_callback a = true) acts) s in
  let wk := _async_engine_handler n s in
  (engine tk = engine s /\ world tk = world s /\ trace tk = trace s /\
   engine_thread tk = engine_thread s /\
   q_log (result_queue tk) = q_log (result_queue s) /\
   q_taken (request_queue tk) = q_taken (request_queue s)) /\
  (board wk = board s /\ boards wk = boards s /\ gui wk = gui s /\
   q_log (request_queue wk) = q_log (request_queue s) /\
   q_taken (result_queue wk) = q_taken (result_queue s)).
Proof.
  intros tk wk. split.
  - subst tk. clear wk. revert s. induction acts as [|a acts IH]; intros s; [done|].
    destruct (decide (is_callback a = true)) as [Ha|Ha].
    + rewrite filter_cons_True by done.
      change (run pf (a :: ?l) s) with (run pf l (act pf a s)).
      destruct (IH (act pf a s)) as (-> & -> & -> & -> & -> & ->).
      assert (Hne : a <> Worker) by (by intros ->).
      by destruct (tk_frame_act pf a s Hne) as (_ & -> & -> & -> & -> & -> & -> & _).
    + rewrite filter_cons_False by done. apply IH.
  - subst wk. induction n as [|n IH]; [done|].
    change (_async_engine_handler (S n) s)
      with (worker_iteration (_async_engine_handler n s)).
    destruct (worker_iteration_frame' (_async_engine_handler n s))
      as (-> & -> & -> & -> & ->). exact IH.
Qed.

(** X8.  Once the worker has ended, nothing that is pressed has any
    effect on the engine side: over every later sequence of callbacks and
    worker passes no engine call is made, no result is put, no request
    is taken, and [self.engine] keeps the value it had. *)
Theorem nothing_happens_after_the_worker_ended pf acts s :
  engine_thread s = Finished ->
  let s' := run pf acts s in
  engine_thread s' = Finished /\
  trace s' = trace s /\ world s' = world s /\ engine s' = engine s /\
  q_log (result_queue s') = q_log (result_queue s) /\
  q_taken (request_queue s') = q_taken (request_queue s).
Proof.
  intros Hfin s'. subst s'. revert s Hfin.
  induction acts as [|a acts IH]; intros s Hfin; [done|].
  change (run pf (a :: acts) s) with (run pf acts (act pf a s)).
  assert (Hstep : engine_thread (act pf a s) = Finished /\
                  trace (act pf a s) = trace s /\ world (act pf a s) = world s /\
                  engine (act pf a s) = engine s /\
                  q_log (result_queue (act pf a s)) = q_log (result_queue s) /\
                  q_taken (request_queue (act pf a s)) = q_taken (request_queue s)).
  { assert (Hw : a = Worker \/ a <> Worker) by (destruct a; (by left) || (by right)).
    destruct Hw as [->|Hne].
    - cbn. unfold worker_iteration. by rewrite Hfin.
    - by destruct (tk_frame_act pf a s Hne) as (_ & -> & -> & -> & -> & -> & -> & _). }
  destruct Hstep as (Hth & <- & <- & <- & <- & <-). by apply IH.
Qed.
End Display.

(** A connect on the scripted engine, from the fresh application. *)
Lemma connect_round_trip_witness :
  let s' := run sim_platform [Connect_pressed "stockfish"; Worker; Poll] (sim_start None) in
  idle (sim_start None) /\
  _resolve_engine_path sim_platform "stockfish" = Some "/usr/games/stockfish" /\
  idle s' /\
  q_log (request_queue s') = [ReqConnect "/usr/games/stockfish"] /\
  engine s' = Some 1%nat /\
  analyze_button (gui s') = true.
Proof.
  intros s'.
  assert (Hidle : idle (sim_start None)) by (repeat split).
  assert (Hres : _resolve_engine_path sim_platform (strip sim_platform "stockfish") =
                 Some "/usr/games/stockfish") by reflexivity.
  destruct (connect_round_trip sim_platform "stockfish" "/usr/games/stockfish"
              (sim_start None) Hidle Hres ltac:(discriminate))
    as (Hidle' & Hlog & Hok & _).
  destruct (Hok 1%nat (sim_spawn (sim_world None)) (sim_spawn (sim_world None))
              eq_refl eq_refl) as (He & _ & Hbtn & _).
  split; [exact Hidle|]. split; [exact Hres|]. split; [exact Hidle'|].
  split; [exact Hlog|]. split; [exact He|exact Hbtn].
Defined.


(** Analyze pressed before any connect. *)
Lemma failed_analysis_is_shown_witness :
  let s := sim_start None in
  let s' := run sim_platform [Analyze_pressed; Worker; Poll] s in
  idle s /\ engine s = None /\
  dialogs (gui s') = [("Error", "Engine is not connected.")] /\
  analyze_button (gui s') = true /\
  best_move_label (gui s') = "..." /\
  trace s' = [].
Proof.
  intros s s'.
  assert (Hidle : idle s) by (repeat split).
  assert (Hb : boards s !! board s = Some starting_board) by (vm_compute; reflexivity).
  destruct (failed_analysis_is_shown sim_platform s starting_board Hidle Hb) as [Hnone _].
  destruct (Hnone eq_refl) as ((_ & Hd & _ & Hbtn & Hmove & _) & Htr).
  split; [exact Hidle|]. split; [reflexivity|]. split; [exact Hd|].
  split; [exact Hbtn|]. split; [exact Hmove|exact Htr].
Defined.

(** The engine binary is gone when the user reconnects. *)
Lemma failed_reconnect_leaves_no_engine_witness :
  let s' := _async_engine_handler 2 sim_reconnect in
  engine sim_reconnect = Some 1%nat /\
  engine s' = None /\
  q_log (result_queue s') =
    [connect_fail "[Errno 2] No such file or directory";
     error "Engine is not connected."] /\
  trace s' =
    [EvQuit 1%nat (Returns ());
     EvPopen "/usr/games/stockfish" (Raises "[Errno 2] No such file or directory")].
Proof.
  intros s'.
  assert (Hpo : (popen_uci "/usr/games/stockfish"
                   (quit 1%nat (world sim_reconnect)).2).1 =
                Raises "[Errno 2] No such file or directory") by (vm_compute; reflexivity).
  destruct (failed_reconnect_leaves_no_engine sim_reconnect 1%nat "/usr/games/stockfish"
              2%positive (2 # 1) [] "[Errno 2] No such file or directory"
              eq_refl eq_refl eq_refl Hpo) as (He & _ & Htr & Hres & _).
  split; [reflexivity|]. split; [exact He|]. split; [exact Hres|exact Htr].
Defined.

(** The window is closed on a connected session; what is pressed after
    the worker has quit the engine reaches nobody. *)
Lemma nothing_happens_after_the_worker_ended_witness :
  let s := run sim_platform [Window_closed; Worker] (sim_polled None) in
  let s' := run sim_platform
              [Connect_pressed "stockfish"; Analyze_pressed; Worker; Worker; Poll] s in
  engine_thread s = Finished /\
  trace s' =
    [EvPopen "/usr/games/stockfish" (Returns 1%nat); EvPing 1%nat (Returns ());
     EvQuit 1%nat (Returns ())] /\
  q_log (result_queue s') = [connect_success] /\
  engine s' = Some 1%nat.
Proof.
  intros s s'.
  assert (Hfin : engine_thread s = Finished) by (vm_compute; reflexivity).
  destruct (nothing_happens_after_the_worker_ended sim_platform
              [Connect_pressed "stockfish"; Analyze_pressed; Worker; Worker; Poll] s Hfin)
    as (_ & Htr & _ & He & Hres & _).
  split; [exact Hfin|]. split; [exact Htr|]. split; [exact Hres|exact He].
Defined.

(** * Further properties: the board on the canvas *)


Lemma square_file_mod sq : squares.square_file sq = sq `mod` 8.
Proof. unfold squares.square_file. apply (Z.land_ones sq 3). lia. Qed.

Lemma square_rank_div sq : squares.square_rank sq = sq `div` 8.
Proof. unfold squares.square_rank. apply (Z.shiftr_div_pow2 sq 3). lia. Qed.

Lemma square_file_rank sq :
  squares.square (squares.square_file sq) (squares.square_rank sq) = sq.
Proof.
  rewrite square_file_mod, square_rank_div. unfold squares.square.
  pose proof (Z.div_mod sq 8). lia.
Qed.

Lemma square_parts file rank :
  0 <= file < 8 ->
  squares.square_file (squares.square file rank) = file /\
  squares.square_rank (squares.square file rank) = rank.
Proof.
  intros Hf. rewrite square_file_mod, square_rank_div. unfold squares.square.
  split.
  - rewrite Z.add_comm, Z.mod_add by lia. by apply Z.mod_small.
  - rewrite Z.add_comm, Z.div_add by lia. rewrite Z.div_small by lia. lia.
Qed.


Lemma squares_enumerated (P : Z -> Prop) `{!forall sq, Decision (P sq)} :
  bool_decide (Forall P (seqZ 0 64)) = true -> forall sq, 0 <= sq < 64 -> P sq.
Proof.
  intros Hall sq Hsq. apply bool_decide_eq_true_1 in Hall.
  rewrite Forall_forall in Hall. apply Hall, elem_of_seqZ. lia.
Qed.

(** X10.  [_draw_board] draws exactly one rectangle where a square is
    drawn.  With the board not flipped its fill is the square's real
    colour (dark when file plus rank is even, as a1); with the board
    flipped the fills are the other way round, because the rows are
    turned over and the fill still follows row plus column. *)
Theorem square_colours_follow_the_rows board_flipped sq :
  0 <= sq < 64 ->
  let xy := _square_to_pixel_coords board_flipped sq coord_offset in
  let parity := (squares.square_file sq + squares.square_rank sq) `mod` 2 in
  filter (fun r => (r.1.1.1.1, r.1.1.1.2) = xy) _draw_board_squares =
    [(xy.1, xy.2, xy.1 + square_size, xy.2 + square_size,
      if board_flipped
      then (if decide (parity = 0) then board_light else board_dark)
      else (if decide (parity = 0) then board_dark else board_light))].
Proof.
  cbv zeta. revert sq.
  destruct board_flipped; refine (squares_enumerated _ _); by vm_compute.
Qed.

(** X11.  The label beside a row names the rank of the squares drawn in
    that row, in either orientation.  The label above a column names the
    file of its squares when the board is not flipped; when it is
    flipped the letters run from h to a while the squares keep their
    columns, so the label names the mirrored file. *)
Theorem coordinate_labels_and_orientation board_flipped sq :
  0 <= sq < 64 ->
  let xy := _square_to_pixel_coords board_flipped sq coord_offset in
  let column := (xy.1 - coord_offset) `div` square_size in
  let row := (xy.2 - coord_offset) `div` square_size in
  rank_label board_flipped row = squares.rank_name (squares.square_rank sq) /\
  file_label board_flipped column =
    squares.file_name (if board_flipped then 7 - squares.square_file sq
                       else squares.square_file sq) /\
  (inject_Z coord_offset / 2,
   inject_Z (row * square_size + coord_offset) + inject_Z square_size / 2,
   rank_label board_flipped row)%Q ∈ _draw_coordinates board_flipped coord_offset /\
  (inject_Z (column * square_size + coord_offset) + inject_Z square_size / 2,
   inject_Z coord_offset / 2,
   file_label board_flipped column)%Q ∈ _draw_coordinates board_flipped coord_offset.
Proof.
  cbv zeta. revert sq.
  destruct board_flipped; refine (squares_enumerated _ _); by vm_compute.
Qed.


(** a1 (0) is drawn dark on the board as first drawn, light once
    flipped. *)
Lemma square_colours_follow_the_rows_witness :
  filter (fun r => (r.1.1.1.1, r.1.1.1.2) = (30, 450)) _draw_board_squares =
    [(30, 450, 90, 510, board_dark)] /\
  filter (fun r => (r.1.1.1.1, r.1.1.1.2) = (30, 30)) _draw_board_squares =
    [(30, 30, 90, 90, board_light)].
Proof.
  split.
  - apply (square_colours_follow_the_rows false 0). lia.
  - apply (square_colours_follow_the_rows true 0). lia.
Defined.

(** h1 (7) on the flipped board: drawn in the last column of the first
    row, under the letter a. *)
Lemma coordinate_labels_and_orientation_witness :
  _square_to_pixel_coords true 7 coord_offset = (450, 30) /\
  rank_label true 0 = "1" /\
  file_label true 7 = "a" /\
  squares.file_name (squares.square_file 7) = "h".
Proof.
  split; [reflexivity|].
  destruct (coordinate_labels_and_orientation true 7 ltac:(lia)) as (Hr & Hf & _).
  split; [exact Hr|]. split; [exact Hf|reflexivity].
Defined.

(** * Further properties: moving pieces with the mouse *)


Section BoardProofs.
Context {W : Type} `{EngineLib W}.
Implicit Types (s : App W) (pf : Platform) (v : BoardView) (rules : moves.Rules).

Lemma select_own_cases rules b clicked v :
  (select_own rules b clicked v = v /\
   forall piece, moves.piece_at rules b clicked = Some piece ->
                 moves.color piece <> chess.turn b) \/
  (exists piece,
     moves.piece_at rules b clicked = Some piece /\
     moves.color piece = chess.turn b /\
     select_own rules b clicked v =
       select (Some clicked)
         (_highlight_legal_moves rules (board_flipped v) b clicked) v).
Proof.
  unfold select_own. destruct (moves.piece_at rules b clicked) as [piece|]; [|by left].
  destruct (decide (moves.color piece = chess.turn b)).
  - right. by exists piece.
  - left. split; [done|]. by intros ? [= <-].
Qed.

(** X12.  A click changes the position only by playing a legal move.
    Whatever is selected (also a selection left over from before a FEN
    reset), either the application state and the FEN text are as before,
    or the move from the selected square to the clicked one is legal on
    the live board and has been pushed on it, the FEN text is that of
    the new position and the selection and highlights are gone.  The
    move tried promotes to a queen exactly when the selected piece is a
    pawn and the clicked square is on the last rank of the side to move,
    and to nothing otherwise: a promotion to another piece cannot be
    played. *)
Theorem click_plays_only_legal_moves rules event_x event_y v s b :
  boards s !! board s = Some b ->
  let u' := _on_square_click rules event_x event_y (v, s) in
  (u'.2 = s /\ fen_var u'.1 = fen_var v) \/
  exists selected clicked move,
    selected_square v = Some selected /\
    clicked_square (board_flipped v) event_x event_y = Some clicked /\
    move ∈ moves.legal_moves rules b /\
    moves.from_square move = selected /\
    moves.to_square move = clicked /\
    (moves.promotion move = None \/ moves.promotion move = Some moves.QUEEN) /\
    (moves.promotion move = Some moves.QUEEN <->
     (exists piece, moves.piece_at rules b selected = Some piece /\
                    moves.piece_type piece = moves.PAWN) /\
     squares.square_rank clicked = (if chess.turn b then 7 else 0)) /\
    u'.2 = mutate_board (moves.push rules move) s /\
    boards u'.2 !! board u'.2 = Some (moves.push rules move b) /\
    u'.1 = {| board_flipped := board_flipped v; selected_square := None;
              fen_var := moves.fen rules (moves.push rules move b);
              highlights := []; theme := theme v |}.
Proof.
  intros Hb u'. subst u'. unfold _on_square_click. cbn [fst snd].
  destruct (clicked_square _ _ _) as [clicked|] eqn:Ec; [|by left].
  rewrite Hb. destruct (selected_square v) as [selected|] eqn:Es.
  2:{ left. cbn. split; [done|].
      by destruct (select_own_cases rules b clicked v) as [[-> _]|(? & _ & _ & ->)]. }
  case_bool_decide as Hlegal.
  2:{ left. cbn. split; [done|].
      by destruct (select_own_cases rules b clicked (select None [] v))
        as [[-> _]|(? & _ & _ & ->)]. }
  right. exists selected, clicked, (tried_move rules b selected clicked).
  split; [done|]. split; [done|]. split; [done|]. split; [done|]. split; [done|].
  split; [|split].
  - unfold tried_move. cbn. destruct (moves.piece_at rules b selected) as [p|]; [|by left].
    destruct (decide _); [|by left]. case_bool_decide; [by right|by left].
  - unfold tried_move. cbn. destruct (moves.piece_at rules b selected) as [p|] eqn:Ep.
    2:{ split; [done|]. by intros [(? & [=] & _) _]. }
    destruct (decide (moves.piece_type p = moves.PAWN)) as [Hp|Hp].
    2:{ split; [done|]. intros [(? & [= <-] & ?) _]. done. }
    unfold chess.WHITE, chess.BLACK.
    case_bool_decide as Hr.
    + split; [|done]. intros _. split; [by exists p|].
      by destruct Hr as [[-> ->]|[-> ->]].
    + split; [done|]. intros [_ Hrank]. exfalso. apply Hr.
      destruct (chess.turn b); [by left|by right].
  - split; [done|]. split; [|done]. cbn. by rewrite lookup_alter_eq, Hb.
Qed.

Lemma live_board_kept pf a s b :
  boards s !! board s = Some b ->
  match a with Board_changed _ => True | _ =>
    boards (act pf a s) !! board (act pf a s) = Some b end.
Proof.
  intros Hb. destruct a as [v0| |f| | |]; [| | done | | |].
  - cbn. unfold _connect_to_stockfish.
    destruct (_resolve_engine_path pf (strip pf v0)) as [r|]; cbn; [|done].
    by destruct (decide (r = "")).
  - cbn. rewrite (_start_analysis_live s b Hb). cbn.
    rewrite lookup_insert_ne; [done|]. by apply (fresh_board_is_new s b).
  - cbn. unfold _check_result_queue.
    destruct (q_get (result_queue s)) as [[msg q]|]; [|done]. by destruct msg.
  - cbn. rewrite _on_closing_unfold. cbv zeta. by destruct (destroyed (gui s)).
  - cbn. by destruct (worker_iteration_frame s) as (-> & -> & _).
Qed.

Lemma highlights_current_act pf rules a (u : BoardView * App W) :
  highlights_current rules u -> highlights_current rules (ui_act pf rules a u).
Proof.
  destruct u as [v s]. intros Hcur.
  destruct a as [event_x event_y| |text| | |a]; cbn [ui_act].
  - unfold _on_square_click. cbn [fst snd].
    destruct (clicked_square _ _ _) as [clicked|]; [|done].
    destruct (boards s !! board s) as [b|] eqn:Hb; [|done].
    destruct (selected_square v) as [selected|] eqn:Es.
    + case_bool_decide; [by left|].
      destruct (select_own_cases rules b clicked (select None [] v))
        as [[-> _]|(piece & Hp & Hc & ->)]; [by left|].
      right. exists clicked, b, piece. done.
    + destruct (select_own_cases rules b clicked v)
        as [[-> _]|(piece & Hp & Hc & ->)]; [done|].
      right. exists clicked, b, piece. done.
  - by left.
  - destruct Hcur as [?|(sq & b & piece & ? & ? & ? & ? & ?)]; [by left|].
    right. by exists sq, b, piece.
  - unfold _reset_board_from_fen. cbn [fst snd].
    destruct (boards s !! board s) as [b|] eqn:Hb; [|done].
    destruct (moves.set_fen rules (fen_var v) b) as [b'|]; [by left|].
    destruct Hcur as [?|(sq & b0 & piece & ? & ? & ? & ? & ?)]; [by left|].
    right. by exists sq, b0, piece.
  - by left.
  - destruct Hcur as [?|(sq & b & piece & Hsel & Hb & Hp & Hc & Hh)];
      [by left; destruct a|].
    pose proof (live_board_kept pf a s b Hb) as Hkept.
    right. exists sq, b, piece. by destruct a.
Qed.

(** X13.  Highlights never go stale.  After any sequence of clicks,
    flips, FEN edits and resets, theme changes, button presses, polls
    and worker passes, either nothing is highlighted or a square is
    selected that holds a piece of the side to move on the live board,
    and what is highlighted is its frame and exactly its legal
    destinations, in the orientation shown. *)
Theorem highlights_are_never_stale pf rules (w : W) acts :
  highlights_current rules (ui_run pf rules acts (ui_init pf rules w)).
Proof.
  unfold ui_run.
  assert (Hgen : forall u, highlights_current rules u ->
                           highlights_current rules
                             (foldl (fun u a => ui_act pf rules a u) u acts)).
  { induction acts as [|a acts IH]; intros u Hu; [done|].
    cbn. by apply IH, highlights_current_act. }
  apply Hgen. by left.
Qed.

Lemma board_action_frame pf rules a (u : BoardView * App W) :
  is_board_action a = true ->
  let u' := ui_act pf rules a u in
  board u'.2 = board u.2 /\
  engine u'.2 = engine u.2 /\ engine_thread u'.2 = engine_thread u.2 /\
  world u'.2 = world u.2 /\ trace u'.2 = trace u.2 /\
  request_queue u'.2 = request_queue u.2 /\ result_queue u'.2 = result_queue u.2 /\
  forall l, l <> board u.2 -> boards u'.2 !! l = boards u.2 !! l.
Proof.
  destruct u as [v s]. intros Ha u'. subst u'.
  destruct a as [event_x event_y| |text| | |a]; [| | | | |done]; cbn [ui_act fst snd].
  - unfold _on_square_click. cbn [fst snd].
    destruct (clicked_square _ _ _) as [clicked|]; [|done].
    destruct (boards s !! board s) as [b|] eqn:Hb; [|done].
    destruct (selected_square v) as [selected|]; [|done].
    case_bool_decide; [|done]. cbn.
    repeat split. intros l Hl. by rewrite lookup_alter_ne.
  - done.
  - done.
  - unfold _reset_board_from_fen. cbn [fst snd].
    destruct (boards s !! board s) as [b|] eqn:Hb; [|done].
    destruct (moves.set_fen rules (fen_var v) b) as [b'|]; [|done]. cbn.
    repeat split. intros l Hl. by rewrite lookup_alter_ne.
  - done.
Qed.

(** X14.  Clicks, flips, FEN edits and resets and theme changes never
    reach the engine side: over any sequence of them the handle, the
    worker thread, the world, the calls made and both queues are as
    before, and so is every board object other than the live one, in
    particular every position already submitted for analysis. *)
Theorem board_actions_leave_the_session_alone pf rules acts (u : BoardView * App W) :
  let u' := ui_run pf rules (filter (fun a => is_board_action a = true) acts) u in
  board u'.2 = board u.2 /\
  engine u'.2 = engine u.2 /\ engine_thread u'.2 = engine_thread u.2 /\
  world u'.2 = world u.2 /\ trace u'.2 = trace u.2 /\
  request_queue u'.2 = request_queue u.2 /\ result_queue u'.2 = result_queue u.2 /\
  forall l, l <> board u.2 -> boards u'.2 !! l = boards u.2 !! l.
Proof.
  intros u'. subst u'. revert u. induction acts as [|a acts IH]; intros u; [done|].
  destruct (decide (is_board_action a = true)) as [Ha|Ha].
  - rewrite filter_cons_True by done.
    change (ui_run pf rules (a :: ?l) u) with (ui_run pf rules l (ui_act pf rules a u)).
    destruct (IH (ui_act pf rules a u)) as (-> & -> & -> & -> & -> & -> & -> & Hl).
    destruct (board_action_frame pf rules a u Ha) as (Hb & -> & -> & -> & -> & -> & -> & Hl').
    repeat split; try done. intros l Hne. rewrite Hl by (by rewrite Hb). by apply Hl'.
  - rewrite filter_cons_False by done. apply IH.
Qed.
End BoardProofs.

(** The pawn on e7 is selected and e8 is clicked: the queen promotion is
    played, although the knight promotion is legal too. *)
Lemma click_plays_only_legal_moves_witness :
  let v := {| board_flipped := false; selected_square := Some 52; fen_var := "";
              highlights := []; theme := "dark" |} in
  let s := sim_start None in
  let u' := _on_square_click sim_rules 280 40 (v, s) in
  boards s !! board s = Some starting_board /\
  clicked_square false 280 40 = Some 60 /\
  boards u'.2 !! board u'.2 =
    Some (moves.push sim_rules
            {| moves.from_square := 52; moves.to_square := 60;
               moves.promotion := Some moves.QUEEN |} starting_board) /\
  selected_square u'.1 = None.
Proof.
  intros v s u'.
  assert (Hb : boards s !! board s = Some starting_board) by (vm_compute; reflexivity).
  split; [exact Hb|]. split; [reflexivity|].
  destruct (click_plays_only_legal_moves sim_rules 280 40 v s starting_board Hb)
    as [[Hsame _]|(selected & clicked & move & _ & _ & _ & _ & _ & _ & _ & _ & _ & _)].
  - exfalso. fold u' in Hsame.
    assert (Hne : boards u'.2 !! board u'.2 <> boards s !! board s) by (by vm_compute).
    apply Hne. by rewrite Hsame.
  - split; by vm_compute.
Defined.

(** * Further properties: fonts and themes *)

Lemma first_installed_spec families candidates otherwise :
  (exists i,
     candidates !! i = Some (first_installed families candidates otherwise) /\
     first_installed families candidates otherwise ∈ families /\
     forall j f, (j < i)%nat -> candidates !! j = Some f -> f ∉ families) \/
  (first_installed families candidates otherwise = otherwise /\
   forall f, f ∈ candidates -> f ∉ families).
Proof.
  induction candidates as [|f candidates IH]; cbn.
  { right. split; [done|]. by intros f ?%elem_of_nil. }
  destruct (decide (f ∈ families)) as [Hin|Hout].
  - left. exists 0%nat. split; [done|]. split; [done|]. lia.
  - destruct IH as [(i & Hi & Hfam & Hbefore)|[Hnone Hall]].
    + left. exists (S i). split; [done|]. split; [done|].
      intros [|j] f' Hj Hf'; [by injection Hf' as <-|].
      apply (Hbefore j); [lia|done].
    + right. split; [done|]. intros f' [->|?]%elem_of_cons; [done|by apply Hall].
Qed.

(** X15.  [_detect_piece_font_family] returns the first font of its
    preference list that Tk reports as installed; when none is installed,
    or when asking Tk raises, it returns "TkDefaultFont". *)
Theorem _detect_piece_font_family_spec tk_families :
  let installed (f : string) :=
    match tk_families with
    | Returns names => f ∈ names
    | Raises _ => False
    end in
  let font := _detect_piece_font_family tk_families in
  (exists i,
     preferred !! i = Some font /\ installed font /\
     forall j f, (j < i)%nat -> preferred !! j = Some f -> ~ installed f) \/
  (font = "TkDefaultFont" /\ forall f, f ∈ preferred -> ~ installed f).
Proof.
  intros installed font. subst font. unfold _detect_piece_font_family.
  set (families := match tk_families with Returns names => list_to_set names | _ => ∅ end).
  assert (Hfam : forall f, f ∈ families <-> installed f).
  { intros f. subst families installed. destruct tk_families; [|set_solver].
    apply elem_of_list_to_set. }
  destruct (first_installed_spec families preferred "TkDefaultFont")
    as [(i & Hi & Hin & Hbefore)|[Hnone Hall]].
  - left. exists i. split; [done|]. split; [by apply Hfam|].
    intros j f Hj Hf ?%Hfam. by apply (Hbefore j f).
  - right. split; [done|]. intros f Hf ?%Hfam. by apply (Hall f).
Qed.

Section ThemeProofs.
Context {W : Type} `{EngineLib W}.

Lemma select_own_theme rules b clicked v :
  theme (select_own rules b clicked v) = theme v.
Proof.
  unfold select_own. destruct (moves.piece_at rules b clicked) as [piece|]; [|done].
  by destruct (decide _).
Qed.

Lemma theme_act pf rules a (u : BoardView * App W) :
  theme u.1 = "dark" \/ theme u.1 = "light" ->
  theme (ui_act pf rules a u).1 = "dark" \/ theme (ui_act pf rules a u).1 = "light".
Proof.
  destruct u as [v s]. cbn [fst]. intros Hth.
  destruct a as [event_x event_y| |text| | |a]; cbn [ui_act fst snd]; try done.
  - unfold _on_square_click. cbn [fst snd].
    destruct (clicked_square _ _ _) as [clicked|]; [|done].
    destruct (boards s !! board s) as [b|]; [|done].
    destruct (selected_square v) as [selected|]; cbn [fst].
    + case_bool_decide; cbn [fst]; [done|]. by rewrite select_own_theme.
    + by rewrite select_own_theme.
  - unfold _reset_board_from_fen. cbn [fst snd].
    destruct (boards s !! board s) as [b|]; [|done].
    by destruct (moves.set_fen rules (fen_var v) b).
  - cbn. destruct (decide (theme v = "dark")); [by right|by left].
  - by destruct a.
Qed.

Lemma _set_status_color_defined (p : gmap string string) kind :
  Forall (fun key => is_Some (p !! key)) palette_keys ->
  exists c,
    _set_status_color p kind = Some c /\
    Some c = p !! (if bool_decide (kind ∈ ["success"; "warning"; "error"; "muted"])
                   then kind else "accent").
Proof.
  intros Hkeys. rewrite Forall_forall in Hkeys.
  assert (Hin : forall key, bool_decide (key ∈ palette_keys) = true -> is_Some (p !! key)).
  { intros key Hk. apply Hkeys. exact (bool_decide_eq_true_1 _ Hk). }
  destruct (Hin "accent" eq_refl) as [a Ha].
  destruct (Hin "success" eq_refl) as [s Hs].
  destruct (Hin "warning" eq_refl) as [w0 Hw].
  destruct (Hin "error" eq_refl) as [e He].
  destruct (Hin "muted" eq_refl) as [m Hm].
  unfold _set_status_color. rewrite Ha, Hs, Hw, He, Hm. cbn.
  eexists. split; [reflexivity|].
  destruct (decide (kind = "info")) as [->|Hki]; [by vm_compute|].
  destruct (decide (kind = "success")) as [->|Hks]; [by vm_compute|].
  destruct (decide (kind = "warning")) as [->|Hkw]; [by vm_compute|].
  destruct (decide (kind = "error")) as [->|Hke]; [by vm_compute|].
  destruct (decide (kind = "muted")) as [->|Hkm]; [by vm_compute|].
  rewrite bool_decide_eq_false_2.
  2:{ rewrite !not_elem_of_cons. repeat split; [done..|apply not_elem_of_nil]. }
  rewrite !lookup_insert_ne, lookup_singleton_ne by done. done.
Qed.

Lemma palette_complete theme_name kind :
  theme_name = "dark" \/ theme_name = "light" ->
  exists p c,
    _palette theme_name = Some p /\
    Forall (fun key => is_Some (p !! key)) palette_keys /\
    _set_status_color p kind = Some c /\
    Some c = p !! (if bool_decide (kind ∈ ["success"; "warning"; "error"; "muted"])
                   then kind else "accent").
Proof.
  assert (Hkeys : forall p : gmap string string,
            bool_decide (Forall (fun key => is_Some (p !! key)) palette_keys) = true ->
            Forall (fun key => is_Some (p !! key)) palette_keys).
  { intros p. apply bool_decide_eq_true_1. }
  intros [-> | ->].
  - destruct (_palette "dark") as [p|] eqn:Ep; [|by vm_compute in Ep].
    assert (Hp : Forall (fun key => is_Some (p !! key)) palette_keys).
    { apply Hkeys. injection Ep as <-. by vm_compute. }
    destruct (_set_status_color_defined p kind Hp) as (c & Hc & Hl).
    by exists p, c.
  - destruct (_palette "light") as [p|] eqn:Ep; [|by vm_compute in Ep].
    assert (Hp : Forall (fun key => is_Some (p !! key)) palette_keys).
    { apply Hkeys. injection Ep as <-. by vm_compute. }
    destruct (_set_status_color_defined p kind Hp) as (c & Hc & Hl).
    by exists p, c.
Qed.

(** X16.  Looking up a colour never fails.  After any sequence of user
    actions and worker passes the current theme is one of the two that
    [self.themes] defines, its palette has every key the program
    subscripts, and [_set_status] finds a colour for every kind: the
    palette's own for success, warning, error and muted, and the accent
    for "info" and for any kind it does not know. *)
Theorem palette_lookups_never_fail pf rules (w : W) acts kind :
  let u := ui_run pf rules acts (ui_init pf rules w) in
  exists p c,
    _palette (theme u.1) = Some p /\
    Forall (fun key => is_Some (p !! key)) palette_keys /\
    _set_status_color p kind = Some c /\
    Some c = p !! (if bool_decide (kind ∈ ["success"; "warning"; "error"; "muted"])
                   then kind else "accent").
Proof.
  intros u. apply palette_complete. subst u. unfold ui_run.
  assert (Hgen : forall u0 : BoardView * App W,
            theme u0.1 = "dark" \/ theme u0.1 = "light" ->
            theme (foldl (fun u a => ui_act pf rules a u) u0 acts).1 = "dark" \/
            theme (foldl (fun u a => ui_act pf rules a u) u0 acts).1 = "light").
  { induction acts as [|a acts IH]; intros u0 Hu; [done|].
    cbn. by apply IH, theme_act. }
  apply Hgen. by left.
Qed.
End ThemeProofs.

(** * Further properties: flipping, and serving every request *)

(** X17.  Flipping the board mirrors it top to bottom and does not
    rotate it: a square keeps its column and moves to the mirrored row,
    so the square shown after a flip where [sq] was shown before has the
    file of [sq] and the opposite rank. *)
Theorem flipping_mirrors_the_ranks_only sq :
  let shown := _square_to_pixel_coords false sq coord_offset in
  let flipped := _square_to_pixel_coords true sq coord_offset in
  flipped.1 = shown.1 /\
  flipped.2 = 8 * square_size - shown.2 /\
  (forall other,
     _square_to_pixel_coords true other coord_offset = shown ->
     squares.square_file other = squares.square_file sq /\
     squares.square_rank other = 7 - squares.square_rank sq).
Proof.
  intros shown flipped. subst shown flipped.
  unfold _square_to_pixel_coords, square_size, coord_offset. cbn [fst snd].
  split; [done|]. split; [lia|].
  intros other [= Hx Hy]. lia.
Qed.

Section Served.
Context {W : Type} `{EngineLib W}.
Implicit Types (s : App W).

Lemma worker_iteration_serves s req rest :
  engine_thread s = Running ->
  q_pending (request_queue s) = req :: rest ->
  wants_result req = true ->
  engine_thread (worker_iteration s) = Running /\
  q_pending (request_queue (worker_iteration s)) = rest /\
  exists res,
    q_log (result_queue (worker_iteration s)) = q_log (result_queue s) ++ [res] /\
    answers req res = true.
Proof.
  intros Hrun Hpend Hwant.
  destruct (q_get_pending _ _ _ Hpend) as [Hget Hrest].
  unfold worker_iteration. rewrite Hrun, Hget.
  set (q := {| q_log := _; q_taken := _ |}) in *.
  destruct req as [sf_path|l t|]; [| |done].
  - destruct (on_connect_handled sf_path (set_request_queue q s))
      as (evs & res & Hret & (_ & _ & _ & Hth & Hq & _ & Hlog & _) & Hans & _).
    destruct (on_connect _ _) as [r s2]. cbn [fst snd] in *. subst r.
    unfold continue. cbn [fst snd]. rewrite Hth, Hq, Hlog.
    split; [done|]. split; [done|]. by exists res.
  - destruct (on_analyze_handled l t (set_request_queue q s))
      as (evs & res & Hret & (_ & _ & _ & Hth & Hq & _ & Hlog & _) & Hans & _).
    destruct (on_analyze _ _ _) as [r s2]. cbn [fst snd] in *. subst r.
    unfold continue. cbn [fst snd]. rewrite Hth, Hq, Hlog.
    split; [done|]. split; [done|]. by exists res.
Qed.

(** X18.  No request is dropped.  A running worker with [reqs] waiting,
    none of them [quit], has after as many passes as there are requests
    taken them all, is still running, and has put exactly one result for
    each, in the order of the requests and of the kind that answers
    it. *)
Theorem every_request_is_served s reqs :
  engine_thread s = Running ->
  q_pending (request_queue s) = reqs ->
  Forall (fun req => wants_result req = true) reqs ->
  let s' := _async_engine_handler (length reqs) s in
  engine_thread s' = Running /\
  q_pending (request_queue s') = [] /\
  exists results,
    q_log (result_queue s') = q_log (result_queue s) ++ results /\
    Forall2 (fun req res => answers req res = true) reqs results.
Proof.
  intros Hrun Hpend Hall s'. subst s'. revert s Hrun Hpend.
  induction Hall as [|req reqs Hreq Hall IH]; intros s Hrun Hpend.
  { cbn. split; [done|]. split; [done|]. exists []. by rewrite app_nil_r. }
  destruct (worker_iteration_serves s req reqs Hrun Hpend Hreq)
    as (Hrun' & Hpend' & res & Hlog & Hans).
  change (_async_engine_handler (length (req :: reqs)) s)
    with (Nat.iter (S (length reqs)) worker_iteration s).
  rewrite Nat.iter_succ_r.
  destruct (IH (worker_iteration s) Hrun' Hpend') as (Hr & Hp & results & Hl & Hf).
  split; [done|]. split; [done|].
  exists (res :: results). split; [|by constructor].
  unfold _async_engine_handler in Hl. rewrite Hl, Hlog, <- app_assoc. done.
Qed.
End Served.

(** The two requests waiting in [sim_reconnect] are both answered. *)
Lemma every_request_is_served_witness :
  let s' := _async_engine_handler 2 sim_reconnect in
  q_pending (request_queue sim_reconnect) =
    [ReqConnect "/usr/games/stockfish"; ReqAnalyze 2%positive (2 # 1)] /\
  engine_thread s' = Running /\
  q_pending (request_queue s') = [] /\
  length (q_log (result_queue s')) = 2%nat.
Proof.
  intros s'.
  assert (Hall : Forall (fun req => wants_result req = true)
                   [ReqConnect "/usr/games/stockfish"; ReqAnalyze 2%positive (2 # 1)])
    by (repeat constructor).
  destruct (every_request_is_served sim_reconnect
              [ReqConnect "/usr/games/stockfish"; ReqAnalyze 2%positive (2 # 1)]
              eq_refl eq_refl Hall)
    as (Hrun & Hpend & results & Hlog & Hans).
  split; [reflexivity|]. split; [exact Hrun|]. split; [exact Hpend|].
  pose proof (f_equal length Hlog) as Hlen. rewrite length_app in Hlen.
  apply Forall2_length in Hans. rewrite <- Hans in Hlen. exact Hlen.
Defined.
